(** * S3 upload scanner: the Lambda handler of [index.mjs]

    A shallow embedding of [scanWithCrowdstrike],
    [getUploadDetailsFromCloudTrail] and [handler], together with the pieces
    of the JavaScript runtime they rely on ([String.prototype.replace],
    [decodeURIComponent], [Date.prototype.setMinutes], [JSON.stringify]), and
    the properties of the remediation pipeline stated over them.

    Conventions.
    - A JavaScript string is the list of its UTF-16 code units.
    - An [await]ed call either completes normally or throws; a computation of
      the handler is a pair of the external calls it made, in order, and its
      completion.
    - The AWS clients are oracles: a function from the command sent to the
      completion of [send].
    - The time zone of the runtime is part of the world the handler runs in;
      the source does not fix it.
    - The S3 notification is read at the shape S3 documents (records with a
      bucket name, an object key and an event time, all strings); the text of
      an audit event is arbitrary.
    - [console.error] is part of the trace; the output of [console.log] and
      [console.warn] is not modelled.  None of these calls can throw on the
      values the handler passes. *)

From Stdlib Require Import ZArith List String Ascii Bool Lia.
Import ListNotations.
Local Open Scope Z_scope.

(* ===================================================================== *)
(** * The JavaScript runtime *)
(* ===================================================================== *)

Module JS.

(** ** Strings *)

Definition jsstring : Type := list Z.

(** An ASCII literal as a JavaScript string. *)
Definition lit (s : string) : jsstring :=
  map (fun a => Z.of_N (N_of_ascii a)) (list_ascii_of_string s).
Arguments lit s%_string.

(** Strict equality [===] of two strings. *)
Fixpoint string_eqb (s t : jsstring) : bool :=
  match s, t with
  | [], [] => true
  | a :: s', b :: t' => (a =? b) && string_eqb s' t'
  | _, _ => false
  end.

(** [String.prototype.toLowerCase], on the ASCII range.  Its one use is the
    search for the word "malicious" below; the code units outside A-Z are
    left as they are, which does not change what that search finds (no other
    character lower-cases to one of the word's letters alone). *)
Definition toLowerCase (s : jsstring) : jsstring :=
  map (fun c => if (65 <=? c) && (c <=? 90) then c + 32 else c) s.

Fixpoint startsWith (s p : jsstring) : bool :=
  match p, s with
  | [], _ => true
  | a :: p', b :: s' => (a =? b) && startsWith s' p'
  | _ :: _, [] => false
  end.

(** [String.prototype.includes]. *)
Fixpoint includes (s p : jsstring) : bool :=
  startsWith s p
  || match s with
     | [] => false
     | _ :: s' => includes s' p
     end.

(** [s.replace(/\+/g, ' ')]: every code unit 0x2B becomes 0x20. *)
Definition replace_plus_with_space (s : jsstring) : jsstring :=
  map (fun c => if c =? 43 then 32 else c) s.

(** ** Values that may be missing *)

(** What a property read can give: [undefined], [null], or a value. *)
Inductive field (A : Type) : Type :=
| Undefined
| Null
| Value (a : A).
Arguments Undefined {A}.
Arguments Null {A}.
Arguments Value {A} a.

(** [ToString] as applied by a template literal. *)
Definition ToString (f : field jsstring) : jsstring :=
  match f with
  | Undefined => lit "undefined"
  | Null => lit "null"
  | Value s => s
  end.

(** [ToBoolean] of a string-valued property: the empty string, [null] and
    [undefined] are falsy. *)
Definition truthy (f : field jsstring) : bool :=
  match f with
  | Value (_ :: _) => true
  | _ => false
  end.

(** [a || b]. *)
Definition or_else (a b : field jsstring) : field jsstring :=
  if truthy a then a else b.

(** [f === s] for a string [s]. *)
Definition strict_equals (f : field jsstring) (s : jsstring) : bool :=
  match f with
  | Value t => string_eqb t s
  | _ => false
  end.

Definition is_set {A : Type} (f : field A) : bool :=
  match f with
  | Value _ => true
  | _ => false
  end.

(** ** Exceptions and completions *)

Inductive error : Type :=
| TypeError
| SyntaxError
| URIError
| ServiceError (name : jsstring).

Inductive completion (A : Type) : Type :=
| Normal (a : A)
| Throw (e : error).
Arguments Normal {A} a.
Arguments Throw {A} e.

Definition map_completion {A B : Type} (f : A -> B) (c : completion A)
  : completion B :=
  match c with
  | Normal a => Normal (f a)
  | Throw e => Throw e
  end.

(** ** decodeURIComponent (ECMAScript, Decode with an empty preserve set) *)

Definition hex_value (c : Z) : option Z :=
  if (48 <=? c) && (c <=? 57) then Some (c - 48)
  else if (65 <=? c) && (c <=? 70) then Some (c - 55)
  else if (97 <=? c) && (c <=? 102) then Some (c - 87)
  else None.

Definition ParseHexOctet (h1 h2 : Z) : option Z :=
  match hex_value h1, hex_value h2 with
  | Some a, Some b => Some (16 * a + b)
  | _, _ => None
  end.

(** Number of leading 1 bits of an octet (5 stands for "more than 4"). *)
Definition leading_ones (B : Z) : Z :=
  if B <? 128 then 0
  else if B <? 192 then 1
  else if B <? 224 then 2
  else if B <? 240 then 3
  else if B <? 248 then 4
  else 5.

Definition continuation (b : Z) : bool := (128 <=? b) && (b <=? 191).

(** The code point of a well-formed UTF-8 sequence of two to four octets
    (Unicode, table 3-7: no overlong form, no surrogate, at most U+10FFFF). *)
Definition utf8_code_point (octets : list Z) : option Z :=
  match octets with
  | [b0; b1] =>
      if (194 <=? b0) && (b0 <=? 223) && continuation b1
      then Some ((b0 - 192) * 64 + (b1 - 128))
      else None
  | [b0; b1; b2] =>
      if (224 <=? b0) && (b0 <=? 239)
         && (if b0 =? 224 then 160 <=? b1 else 128 <=? b1)
         && (if b0 =? 237 then b1 <=? 159 else b1 <=? 191)
         && continuation b2
      then Some ((b0 - 224) * 4096 + (b1 - 128) * 64 + (b2 - 128))
      else None
  | [b0; b1; b2; b3] =>
      if (240 <=? b0) && (b0 <=? 244)
         && (if b0 =? 240 then 144 <=? b1 else 128 <=? b1)
         && (if b0 =? 244 then b1 <=? 143 else b1 <=? 191)
         && continuation b2 && continuation b3
      then Some ((b0 - 240) * 262144 + (b1 - 128) * 4096
                 + (b2 - 128) * 64 + (b3 - 128))
      else None
  | _ => None
  end.

Definition UTF16EncodeCodePoint (V : Z) : jsstring :=
  if V <=? 65535 then [V]
  else [(V - 65536) / 1024 + 55296; (V - 65536) mod 1024 + 56320].

(** The decoding loop.  [pending] is [None] between characters and
    [Some (r, octets)] inside a multi-octet sequence that still needs [r]
    escapes.  Every malformed input throws the same [URIError], so the order
    in which the standard tests the failure conditions does not show. *)
Fixpoint Decode (pending : option (nat * list Z)) (s : jsstring)
  : completion jsstring :=
  match pending with
  | None =>
      match s with
      | [] => Normal []
      | C :: rest =>
          if C =? 37 then
            match rest with
            | h1 :: h2 :: rest' =>
                match ParseHexOctet h1 h2 with
                | None => Throw URIError
                | Some B =>
                    match leading_ones B with
                    | 0 => map_completion (cons B) (Decode None rest')
                    | 2 => Decode (Some (1%nat, [B])) rest'
                    | 3 => Decode (Some (2%nat, [B])) rest'
                    | 4 => Decode (Some (3%nat, [B])) rest'
                    | _ => Throw URIError
                    end
                end
            | _ => Throw URIError
            end
          else map_completion (cons C) (Decode None rest)
      end
  | Some (r, octets) =>
      match s with
      | 37 :: h1 :: h2 :: rest' =>
          match ParseHexOctet h1 h2 with
          | None => Throw URIError
          | Some B =>
              match r with
              | S (S r') => Decode (Some (S r', octets ++ [B])) rest'
              | _ =>
                  match utf8_code_point (octets ++ [B]) with
                  | None => Throw URIError
                  | Some V =>
                      map_completion (app (UTF16EncodeCodePoint V))
                                     (Decode None rest')
                  end
              end
          end
      | _ => Throw URIError
      end
  end.

Definition decodeURIComponent (s : jsstring) : completion jsstring :=
  Decode None s.

(** ** Date (time values in milliseconds since the epoch; [None] is NaN)

    [getMinutes] and [setMinutes] work on local time.  The time zone of the
    runtime is given by its offsets from UTC, in milliseconds: [LocalTZA t
    true] at the UTC time value [t], and [LocalTZA t false] for the local
    time value [t] (where a local time occurs twice or not at all the zone
    says which offset it takes). *)

Definition Date : Type := option Z.

Definition msPerDay : Z := 86400000.
Definition msPerHour : Z := 3600000.
Definition msPerMinute : Z := 60000.
Definition msPerSecond : Z := 1000.

Definition Day (t : Z) : Z := t / msPerDay.
Definition HourFromTime (t : Z) : Z := (t / msPerHour) mod 24.
Definition MinFromTime (t : Z) : Z := (t / msPerMinute) mod 60.
Definition SecFromTime (t : Z) : Z := (t / msPerSecond) mod 60.
Definition msFromTime (t : Z) : Z := t mod msPerSecond.

Definition MakeTime (hour min sec ms : Z) : Z :=
  hour * msPerHour + min * msPerMinute + sec * msPerSecond + ms.

Definition MakeDate (day time : Z) : Z := day * msPerDay + time.

Definition TimeClip (time : Z) : Date :=
  if Z.abs time >? 8640000000000000 then None else Some time.

Record TimeZone : Type := { LocalTZA : Z -> bool -> Z }.

Definition LocalTime (zone : TimeZone) (t : Z) : Z := t + LocalTZA zone t true.

Definition UTC (zone : TimeZone) (t : Z) : Z := t - LocalTZA zone t false.

(** [d.getMinutes()]. *)
Definition getMinutes (zone : TimeZone) (d : Date) : option Z :=
  option_map (fun t => MinFromTime (LocalTime zone t)) d.

(** [d.setMinutes(min)]: the new time value of [d]. *)
Definition setMinutes (zone : TimeZone) (d : Date) (min : option Z) : Date :=
  match d, min with
  | Some t, Some m =>
      let t := LocalTime zone t in
      TimeClip
        (UTC zone
           (MakeDate (Day t)
              (MakeTime (HourFromTime t) m (SecFromTime t) (msFromTime t))))
  | _, _ => None
  end.

(** Subtraction of a constant from a number that may be NaN. *)
Definition minus (x : option Z) (k : Z) : option Z :=
  option_map (fun v => v - k) x.

(** ** JSON.stringify of an object whose members are strings *)

Definition hex_lower (d : Z) : Z := if d <? 10 then 48 + d else 87 + d.

Definition UnicodeEscape (c : Z) : jsstring :=
  [92; 117; hex_lower (c / 4096); hex_lower ((c / 256) mod 16);
   hex_lower ((c / 16) mod 16); hex_lower (c mod 16)].

Definition is_leading_surrogate (c : Z) : bool := (55296 <=? c) && (c <=? 56319).
Definition is_trailing_surrogate (c : Z) : bool := (56320 <=? c) && (c <=? 57343).

Definition quote_unit (c : Z) : jsstring :=
  if c =? 8 then [92; 98]
  else if c =? 9 then [92; 116]
  else if c =? 10 then [92; 110]
  else if c =? 12 then [92; 102]
  else if c =? 13 then [92; 114]
  else if c =? 34 then [92; 34]
  else if c =? 92 then [92; 92]
  else if c <? 32 then UnicodeEscape c
  else [c].

Fixpoint quote_units (s : jsstring) : jsstring :=
  match s with
  | [] => []
  | c :: rest =>
      if is_leading_surrogate c then
        match rest with
        | d :: rest' =>
            if is_trailing_surrogate d then c :: d :: quote_units rest'
            else UnicodeEscape c ++ quote_units rest
        | [] => UnicodeEscape c
        end
      else if is_trailing_surrogate c then UnicodeEscape c ++ quote_units rest
      else quote_unit c ++ quote_units rest
  end.

Definition QuoteJSONString (s : jsstring) : jsstring :=
  [34] ++ quote_units s ++ [34].

Fixpoint join_members (ms : list (jsstring * jsstring)) : jsstring :=
  match ms with
  | [] => []
  | [(k, v)] => QuoteJSONString k ++ [58] ++ QuoteJSONString v
  | (k, v) :: rest =>
      QuoteJSONString k ++ [58] ++ QuoteJSONString v ++ [44] ++ join_members rest
  end.

(** [JSON.stringify(o)] for an object [o] with the listed own properties, in
    order, all of them strings; no indentation. *)
Definition JSON_stringify (members : list (jsstring * jsstring)) : jsstring :=
  [123] ++ join_members members ++ [125].

(** A JSON text written with ['] where the text has a double quote. *)
Definition json_lit (s : string) : jsstring :=
  map (fun c => if c =? 39 then 34 else c) (lit s).
Arguments json_lit s%_string.

End JS.

Import JS.

(* ===================================================================== *)
(** * Data exchanged with the services *)
(* ===================================================================== *)

(** The S3 notification delivered to the function. *)
Module S3.
Record EventRecord : Type := {
  bucket_name : jsstring;      (* record.s3.bucket.name *)
  object_key : jsstring;       (* record.s3.object.key *)
  eventTime : jsstring         (* record.eventTime *)
}.
Record Event : Type := { Records : list EventRecord }.

Record DeleteObjectCommand : Type := { Bucket : jsstring; Key : jsstring }.
End S3.

(** CloudTrail's [LookupEvents]. *)
Module CloudTrail.
Record LookupAttribute : Type := {
  AttributeKey : jsstring;
  AttributeValue : jsstring
}.
Record LookupEventsCommand : Type := {
  LookupAttributes : list LookupAttribute;
  StartTime : Date;
  EndTime : Date
}.

(** The properties the handler reads in a parsed audit record. *)
Record RequestParameters : Type := {
  bucketName : field jsstring;
  key : field jsstring
}.
Record UserIdentity : Type := {
  arn : field jsstring;
  principalId : field jsstring
}.
Record AuditRecord : Type := {
  requestParameters : field RequestParameters;
  userIdentity : field UserIdentity;
  sourceIPAddress : field jsstring;
  eventTime : field jsstring
}.

(** The [CloudTrailEvent] text of a returned event, given by what
    [JSON.parse] makes of it: a text that is absent or is not JSON, the
    text [null], or a JSON value read through the properties above (a
    number, string, boolean or array has none of them). *)
Inductive JSONText : Type :=
| NotJSON
| JSONNull
| JSONValue (r : AuditRecord).

Record Event : Type := { CloudTrailEvent : JSONText }.

(** The response; [Events] may be missing from it. *)
Record LookupEventsOutput : Type := { Events : option (list Event) }.
End CloudTrail.

(** SES's [SendEmail]. *)
Module SES.
Record SendEmailCommand : Type := {
  Destination_ToAddresses : list (field jsstring);
  Message_Body_Text_Data : jsstring;
  Message_Subject_Data : jsstring;
  Source : field jsstring
}.
End SES.

(** [JSON.parse] of an event's text. *)
Definition JSON_parse (text : CloudTrail.JSONText)
  : completion (field CloudTrail.AuditRecord) :=
  match text with
  | CloudTrail.NotJSON => Throw SyntaxError
  | CloudTrail.JSONNull => Normal Null
  | CloudTrail.JSONValue r => Normal (Value r)
  end.

(** [o.p]: reading a property of [undefined] or [null] throws. *)
Definition get {A B : Type} (o : field A) (p : A -> B) : completion B :=
  match o with
  | Value a => Normal (p a)
  | _ => Throw TypeError
  end.

(* ===================================================================== *)
(** * Computations: external calls in order, then a completion *)
(* ===================================================================== *)

Inductive effect : Type :=
| ScanObject (bucket key : jsstring)
| CloudTrailSend (command : CloudTrail.LookupEventsCommand)
| S3Send (command : S3.DeleteObjectCommand)
| SESSend (command : SES.SendEmailCommand)
| ConsoleError (message : jsstring) (e : error).

Definition trace : Type := list effect.

Definition M (A : Type) : Type := (trace * completion A)%type.

Definition ret {A : Type} (a : A) : M A := ([], Normal a).

Definition throw {A : Type} (e : error) : M A := ([], Throw e).

Definition lift {A : Type} (c : completion A) : M A := ([], c).

(** An external call: it is recorded, and completes as the callee decides. *)
Definition perform {A : Type} (eff : effect) (c : completion A) : M A :=
  ([eff], c).

Definition bind {A B : Type} (m : M A) (k : A -> M B) : M B :=
  match snd m with
  | Normal a => (fst m ++ fst (k a), snd (k a))
  | Throw e => (fst m, Throw e)
  end.

(** [try { m } catch (error) { h error }]. *)
Definition try_catch {A : Type} (m : M A) (h : error -> M A) : M A :=
  match snd m with
  | Normal a => m
  | Throw e => (fst m ++ fst (h e), snd (h e))
  end.

Declare Scope js_scope.
Delimit Scope js_scope with js.
Notation "x <- m ;; k" := (bind m (fun x => k))
  (at level 61, m at next level, right associativity) : js_scope.
Notation "m ;; k" := (bind m (fun _ => k))
  (at level 61, right associativity) : js_scope.
Local Open Scope js_scope.

Definition calls {A : Type} (m : M A) : trace := fst m.
Definition result {A : Type} (m : M A) : completion A := snd m.

(* ===================================================================== *)
(** * The program *)
(* ===================================================================== *)

Record ScanResult : Type := { isMalicious : bool; details : jsstring }.

Record UploadDetails : Type := {
  user : field jsstring;
  ipAddress : field jsstring;
  uploadTime : field jsstring
}.

Record Response : Type := { statusCode : Z; body : jsstring }.

(** The clients created at module load, [process.env], and the time zone the
    runtime is set to. *)
Record World : Type := {
  cloudTrailClient_send :
    CloudTrail.LookupEventsCommand -> completion CloudTrail.LookupEventsOutput;
  s3Client_send : S3.DeleteObjectCommand -> completion unit;
  sesClient_send : SES.SendEmailCommand -> completion unit;
  NOTIFICATION_EMAIL_TO : field jsstring;
  NOTIFICATION_EMAIL_FROM : field jsstring;
  timeZone : TimeZone
}.

(** A scanner: [scan(bucket, key)], which may throw.  The source calls
    [scanWithCrowdstrike], a placeholder it says is to be replaced by the
    call of the scanning service; the [try] block is embedded over the
    scanner it calls, and [handler] is its instance with the placeholder. *)
Definition Scanner : Type := jsstring -> jsstring -> completion ScanResult.

(** [scanWithCrowdstrike]: the placeholder scanner of the source. *)
Definition scanWithCrowdstrike : Scanner := fun bucket key =>
  if includes (toLowerCase key) (lit "malicious") then
    Normal {| isMalicious := true;
              details := lit "Simulated detection: EICAR Test File" |}
  else
    Normal {| isMalicious := false;
              details := lit "Scan complete. No threats found." |}.

(** [requestParams && requestParams.bucketName === bucket
     && requestParams.key === key] *)
Definition request_matches (requestParams : field CloudTrail.RequestParameters)
    (bucket key : jsstring) : bool :=
  match requestParams with
  | Value p =>
      strict_equals (CloudTrail.bucketName p) bucket
      && strict_equals (CloudTrail.key p) key
  | _ => false
  end.

(** The [for (const event of Events)] loop of
    [getUploadDetailsFromCloudTrail]; [Some d] is its [return d]. *)
Fixpoint find_upload (bucket key : jsstring) (Events : list CloudTrail.Event)
  : M (option UploadDetails) :=
  match Events with
  | [] => ret None
  | event :: rest =>
      cloudTrailEvent <- lift (JSON_parse (CloudTrail.CloudTrailEvent event)) ;;
      requestParams <- lift (get cloudTrailEvent CloudTrail.requestParameters) ;;
      if request_matches requestParams bucket key then
        userIdentity <- lift (get cloudTrailEvent CloudTrail.userIdentity) ;;
        arn <- lift (get userIdentity CloudTrail.arn) ;;
        principalId <- lift (get userIdentity CloudTrail.principalId) ;;
        sourceIPAddress <- lift (get cloudTrailEvent CloudTrail.sourceIPAddress) ;;
        eventTime <- lift (get cloudTrailEvent CloudTrail.eventTime) ;;
        ret (Some {| user := or_else arn principalId;
                     ipAddress := sourceIPAddress;
                     uploadTime := eventTime |})
      else find_upload bucket key rest
  end.

(** [for ... of] over a missing list throws. *)
Definition iterable {A : Type} (l : option (list A)) : completion (list A) :=
  match l with
  | Some l => Normal l
  | None => Throw TypeError
  end.

Section Pipeline.

(** [Date.parse]: the time value of a date string, or NaN. *)
Variable Date_parse : jsstring -> option Z.

Definition new_Date (value : jsstring) : Date := Date_parse value.

Definition lookup_command (zone : TimeZone) (eventTime : jsstring)
  : CloudTrail.LookupEventsCommand :=
  let startTime := new_Date eventTime in
  let startTime :=
    setMinutes zone startTime (minus (getMinutes zone startTime) 15) in
  {| CloudTrail.LookupAttributes :=
       [ {| CloudTrail.AttributeKey := lit "EventName";
            CloudTrail.AttributeValue := lit "PutObject" |} ];
     CloudTrail.StartTime := startTime;
     CloudTrail.EndTime := new_Date eventTime |}.

Definition not_found (eventTime : jsstring) : UploadDetails :=
  {| user := Value (lit "Not Found (CloudTrail Latency)");
     ipAddress := Value (lit "Not Found");
     uploadTime := Value eventTime |}.

Definition getUploadDetailsFromCloudTrail (w : World)
    (bucket key eventTime : jsstring) : M UploadDetails :=
  let command := lookup_command (timeZone w) eventTime in
  found <- try_catch
             (response <- perform (CloudTrailSend command)
                                  (cloudTrailClient_send w command) ;;
              Events <- lift (iterable (CloudTrail.Events response)) ;;
              find_upload bucket key Events)
             (fun error =>
                perform (ConsoleError
                           (lit "Error looking up CloudTrail events:") error)
                        (Normal None)) ;;
  match found with
  | Some uploadDetails => ret uploadDetails
  | None => ret (not_found eventTime)
  end.

Definition nl : jsstring := [10].

Definition email_subject : jsstring :=
  lit "[SECURITY ALERT] Malicious File Deleted from S3".

Definition email_body (bucket key : jsstring) (scanResult : ScanResult)
    (uploadDetails : UploadDetails) : jsstring :=
  nl ++ lit "A file uploaded to the S3 bucket '" ++ bucket
     ++ lit "' was identified as malicious by Crowdstrike and has been automatically deleted."
     ++ nl
  ++ nl
  ++ lit "Please review the details below:" ++ nl
  ++ nl
  ++ lit "- **File Name**: " ++ key ++ nl
  ++ lit "- **Scan Details**: " ++ details scanResult ++ nl
  ++ lit "- **Uploader Principal**: " ++ ToString (user uploadDetails) ++ nl
  ++ lit "- **Source IP Address**: " ++ ToString (ipAddress uploadDetails) ++ nl
  ++ lit "- **Upload Timestamp**: " ++ ToString (uploadTime uploadDetails) ++ nl
  ++ nl
  ++ lit "This action was performed automatically by the S3 security scanning system."
     ++ nl
  ++ lit "            ".

Definition email_command (w : World) (bucket key : jsstring)
    (scanResult : ScanResult) (uploadDetails : UploadDetails)
  : SES.SendEmailCommand :=
  {| SES.Destination_ToAddresses := [NOTIFICATION_EMAIL_TO w];
     SES.Message_Body_Text_Data := email_body bucket key scanResult uploadDetails;
     SES.Message_Subject_Data := email_subject;
     SES.Source := NOTIFICATION_EMAIL_FROM w |}.

Definition scan_complete (scanResult : ScanResult) : Response :=
  {| statusCode := 200;
     body := JSON_stringify
               [ (lit "message", lit "Scan complete.");
                 (lit "status",
                  if isMalicious scanResult then lit "Malicious" else lit "Clean") ] |}.

(** The [try] block of the handler, over an arbitrary scanner.  The call of
    the scanner is recorded in the trace as [ScanObject]. *)
Definition handler_try (scan : Scanner) (w : World)
    (bucket key eventTime : jsstring) : M Response :=
  scanResult <- perform (ScanObject bucket key) (scan bucket key) ;;
  (if isMalicious scanResult then
     uploadDetails <- getUploadDetailsFromCloudTrail w bucket key eventTime ;;
     let deleteCommand := {| S3.Bucket := bucket; S3.Key := key |} in
     perform (S3Send deleteCommand) (s3Client_send w deleteCommand) ;;
     let emailCommand :=
       email_command w bucket key scanResult uploadDetails in
     perform (SESSend emailCommand) (sesClient_send w emailCommand) ;;
     ret tt
   else ret tt) ;;
  ret (scan_complete scanResult).

(** Its [catch] clause: report, then rethrow. *)
Definition handler_catch (error : error) : M Response :=
  perform (ConsoleError (lit "An error occurred in the handler:") error)
          (Normal tt) ;;
  throw error.

(** The handler over an arbitrary scanner.  The reads of [record] come
    before the [try]: what they throw is not caught. *)
Definition handler_with (scan : Scanner) (w : World) (event : S3.Event)
  : M Response :=
  let record := nth_error (S3.Records event) 0 in
  bucket <- lift (match record with
                  | Some r => Normal (S3.bucket_name r)
                  | None => Throw TypeError
                  end) ;;
  key <- lift (match record with
               | Some r =>
                   decodeURIComponent
                     (replace_plus_with_space (S3.object_key r))
               | None => Throw TypeError
               end) ;;
  eventTime <- lift (match record with
                     | Some r => Normal (S3.eventTime r)
                     | None => Throw TypeError
                     end) ;;
  try_catch (handler_try scan w bucket key eventTime) handler_catch.

(** [handler], as exported: the pipeline with the placeholder scanner. *)
Definition handler : World -> S3.Event -> M Response :=
  handler_with scanWithCrowdstrike.

End Pipeline.

(* ===================================================================== *)
(** * The encoding of object keys in S3 notifications *)
(* ===================================================================== *)

Module KeyEncoding.

(** The encoder that produces [record.s3.object.key] is the storage service's
    and is not in the source; the definitions of this module describe it. *)

Definition hex_upper (d : Z) : Z := if d <? 10 then 48 + d else 55 + d.

Definition percent_escape (b : Z) : jsstring :=
  [37; hex_upper (b / 16); hex_upper (b mod 16)].

Definition utf8_octets (V : Z) : list Z :=
  if V <? 128 then [V]
  else if V <? 2048 then [192 + V / 64; 128 + V mod 64]
  else if V <? 65536 then
    [224 + V / 4096; 128 + (V / 64) mod 64; 128 + V mod 64]
  else
    [240 + V / 262144; 128 + (V / 4096) mod 64; 128 + (V / 64) mod 64;
     128 + V mod 64].

(** Modelled from the spec: section 6 has the key "percent-encoded, with
    literal [+] representing space".  An octet is written as [+] when it is a
    space, as itself when it is in the set [safe], and as [%XX] otherwise. *)
Definition encode_octet (safe : Z -> bool) (b : Z) : jsstring :=
  if b =? 32 then [43]
  else if safe b then [b]
  else percent_escape b.

(** Modelled from the spec: the encoded form of a key, a sequence of Unicode
    scalar values, is the encoding of its UTF-8 octets, one by one. *)
Definition encode_key (safe : Z -> bool) (key : list Z) : jsstring :=
  flat_map (fun V => flat_map (encode_octet safe) (utf8_octets V)) key.

Definition scalar_value (V : Z) : Prop :=
  0 <= V < 55296 \/ 57344 <= V <= 1114111.

(** Modelled from the spec: which octets are written literally is left open;
    they are ASCII and are neither [%] nor [+], which have a meaning of their
    own in the encoded form. *)
Definition literal_set (safe : Z -> bool) : Prop :=
  forall b, safe b = true -> 0 <= b < 128 /\ b <> 37 /\ b <> 43.

(** The key as a JavaScript string. *)
Definition stored_key (key : list Z) : jsstring :=
  flat_map UTF16EncodeCodePoint key.

(** Letters, digits and [- . _ * /] are written literally. *)
Definition unreserved (b : Z) : bool :=
  ((48 <=? b) && (b <=? 57)) || ((65 <=? b) && (b <=? 90))
  || ((97 <=? b) && (b <=? 122))
  || (b =? 45) || (b =? 46) || (b =? 95) || (b =? 42) || (b =? 47).

End KeyEncoding.

(* ===================================================================== *)
(** * Observing a run *)
(* ===================================================================== *)

(** The [DeleteObject] commands sent to storage, in order. *)
Fixpoint deletes (t : trace) : list S3.DeleteObjectCommand :=
  match t with
  | [] => []
  | S3Send c :: t' => c :: deletes t'
  | _ :: t' => deletes t'
  end.

(** The [SendEmail] commands sent, in order. *)
Fixpoint notifications (t : trace) : list SES.SendEmailCommand :=
  match t with
  | [] => []
  | SESSend c :: t' => c :: notifications t'
  | _ :: t' => notifications t'
  end.

(** The (bucket, key) pairs submitted to the scanner, in order. *)
Fixpoint scans (t : trace) : list (jsstring * jsstring) :=
  match t with
  | [] => []
  | ScanObject b k :: t' => (b, k) :: scans t'
  | _ :: t' => scans t'
  end.

(** The errors written with [console.error], in order. *)
Fixpoint reported (t : trace) : list error :=
  match t with
  | [] => []
  | ConsoleError _ e :: t' => e :: reported t'
  | _ :: t' => reported t'
  end.

(** The run returned a value to the invoker instead of throwing. *)
Definition returns {A : Type} (m : M A) : Prop :=
  exists a, result m = Normal a.

(** The event's request parameters match [(bucket, key)]: the condition of
    the [if] in the loop, for an event whose text could be parsed. *)
Definition event_matches (bucket key : jsstring) (event : CloudTrail.Event)
  : bool :=
  match CloudTrail.CloudTrailEvent event with
  | CloudTrail.JSONValue r =>
      request_matches (CloudTrail.requestParameters r) bucket key
  | _ => false
  end.

(** The event's text parses to something other than [null]. *)
Definition readable (event : CloudTrail.Event) : bool :=
  match CloudTrail.CloudTrailEvent event with
  | CloudTrail.JSONValue _ => true
  | _ => false
  end.

(** The details the loop returns for a matching record with identity [u]. *)
Definition details_of (r : CloudTrail.AuditRecord) (u : CloudTrail.UserIdentity)
  : UploadDetails :=
  {| user := or_else (CloudTrail.arn u) (CloudTrail.principalId u);
     ipAddress := CloudTrail.sourceIPAddress r;
     uploadTime := CloudTrail.eventTime r |}.

(** No field is [undefined] or [null]. *)
Definition fully_populated (d : UploadDetails) : bool :=
  is_set (user d) && is_set (ipAddress d) && is_set (uploadTime d).

(** The body of a successful response, by verdict. *)
Definition body_Clean : jsstring :=
  json_lit "{'message':'Scan complete.','status':'Clean'}".
Definition body_Malicious : jsstring :=
  json_lit "{'message':'Scan complete.','status':'Malicious'}".

(* ===================================================================== *)
(** * Sample runs *)
(* ===================================================================== *)

Module Scenario.

Definition when : jsstring := lit "2024-01-01T10:00:00Z".

(** [Date.parse] on the one date string the sample runs use. *)
Definition Date_parse (s : jsstring) : option Z :=
  if string_eqb s when then Some 1704103200000 else None.

Definition upload (object_key : jsstring) : S3.Event :=
  {| S3.Records :=
       [ {| S3.bucket_name := lit "uploads";
            S3.object_key := object_key;
            S3.eventTime := when |} ] |}.

Definition flagged_upload : S3.Event := upload (lit "reports/malicious_invoice.pdf").
Definition harmless_upload : S3.Event := upload (lit "reports/summary+2024.pdf").

Definition flagged : S3.DeleteObjectCommand :=
  {| S3.Bucket := lit "uploads"; S3.Key := lit "reports/malicious_invoice.pdf" |}.

Definition put_object (identity : field CloudTrail.UserIdentity)
  : CloudTrail.AuditRecord :=
  {| CloudTrail.requestParameters :=
       Value {| CloudTrail.bucketName := Value (lit "uploads");
                CloudTrail.key := Value (lit "reports/malicious_invoice.pdf") |};
     CloudTrail.userIdentity := identity;
     CloudTrail.sourceIPAddress := Value (lit "203.0.113.5");
     CloudTrail.eventTime := Value (lit "2024-01-01T09:59:58Z") |}.

Definition alice : CloudTrail.UserIdentity :=
  {| CloudTrail.arn := Value (lit "arn:aws:iam::123:user/alice");
     CloudTrail.principalId := Value (lit "AIDAEXAMPLE") |}.

(** An identity that names neither an ARN nor a principal ID. *)
Definition anonymous : CloudTrail.UserIdentity :=
  {| CloudTrail.arn := Undefined; CloudTrail.principalId := Undefined |}.

Definition by_alice : CloudTrail.Event :=
  {| CloudTrail.CloudTrailEvent := CloudTrail.JSONValue (put_object (Value alice)) |}.
Definition by_nobody : CloudTrail.Event :=
  {| CloudTrail.CloudTrailEvent :=
       CloudTrail.JSONValue (put_object (Value anonymous)) |}.
Definition garbled : CloudTrail.Event :=
  {| CloudTrail.CloudTrailEvent := CloudTrail.NotJSON |}.

(** Another object's upload. *)
Definition elsewhere : CloudTrail.Event :=
  {| CloudTrail.CloudTrailEvent :=
       CloudTrail.JSONValue
         {| CloudTrail.requestParameters :=
              Value {| CloudTrail.bucketName := Value (lit "uploads");
                       CloudTrail.key := Value (lit "reports/other.pdf") |};
            CloudTrail.userIdentity := Value alice;
            CloudTrail.sourceIPAddress := Value (lit "198.51.100.7");
            CloudTrail.eventTime := Value (lit "2024-01-01T09:58:00Z") |} |}.

Definition found (Events : list CloudTrail.Event)
  : completion CloudTrail.LookupEventsOutput :=
  Normal {| CloudTrail.Events := Some Events |}.

(** The zone of the sample runs: UTC. *)
Definition zone : TimeZone := {| LocalTZA := fun _ _ => 0 |}.

(** The services, each answering every request the same way. *)
Definition world (audit : completion CloudTrail.LookupEventsOutput)
    (storage mail : completion unit) : World :=
  {| cloudTrailClient_send := fun _ => audit;
     s3Client_send := fun _ => storage;
     sesClient_send := fun _ => mail;
     NOTIFICATION_EMAIL_TO := Value (lit "security@example.com");
     NOTIFICATION_EMAIL_FROM := Value (lit "scanner@example.com");
     timeZone := zone |}.

Definition all_up : World := world (found [by_alice]) (Normal tt) (Normal tt).

Definition mail_down : World :=
  world (found [by_alice]) (Normal tt) (Throw (ServiceError (lit "MessageRejected"))).

Definition audit_down : World :=
  world (Throw (ServiceError (lit "ThrottlingException"))) (Normal tt) (Normal tt).

(** A scanner that cannot be reached. *)
Definition unreachable : Scanner :=
  fun _ _ => Throw (ServiceError (lit "ScanUnavailable")).

(** The details read from [by_alice]. *)
Definition alice_details : UploadDetails :=
  {| user := Value (lit "arn:aws:iam::123:user/alice");
     ipAddress := Value (lit "203.0.113.5");
     uploadTime := Value (lit "2024-01-01T09:59:58Z") |}.

Definition verdict : ScanResult :=
  {| isMalicious := true;
     details := lit "Simulated detection: EICAR Test File" |}.

(** A key with a space, a plus sign, a percent sign, an accented letter, a
    euro sign and an emoji: [a b+c%<U+E9><U+20AC><U+1F600>]. *)
Definition awkward_key : list Z := [97; 32; 98; 43; 99; 37; 233; 8364; 128512].

End Scenario.

(* ===================================================================== *)
(** * Further observations *)
(* ===================================================================== *)

(** The [LookupEvents] commands sent to the audit source, in order. *)
Fixpoint queries (t : trace) : list CloudTrail.LookupEventsCommand :=
  match t with
  | [] => []
  | CloudTrailSend c :: t' => c :: queries t'
  | _ :: t' => queries t'
  end.

(** The first argument of the [console.error] call in
    [getUploadDetailsFromCloudTrail], and of the one in [handler]. *)
Definition lookup_failed : jsstring := lit "Error looking up CloudTrail events:".
Definition handler_failed : jsstring := lit "An error occurred in the handler:".

(** The event is readable and is another object's. *)
Definition passed_over (bucket key : jsstring) (audit : CloudTrail.Event)
  : Prop :=
  readable audit = true /\ event_matches bucket key audit = false.

(** The event stops the loop with an exception: its text cannot be parsed or
    is [null], or it matches and has no user identity to read. *)
Definition breaks_the_scan (bucket key : jsstring) (audit : CloudTrail.Event)
  : Prop :=
  readable audit = false
  \/ exists a,
       CloudTrail.CloudTrailEvent audit = CloudTrail.JSONValue a
       /\ request_matches (CloudTrail.requestParameters a) bucket key = true
       /\ is_set (CloudTrail.userIdentity a) = false.

(** Further sample data. *)
Module Samples.

Definition record (object_key : jsstring) : S3.EventRecord :=
  {| S3.bucket_name := lit "uploads";
     S3.object_key := object_key;
     S3.eventTime := Scenario.when |}.

(** The audit source returns [Events]; storage and mail are up. *)
Definition audited (Events : list CloudTrail.Event) : World :=
  Scenario.world (Scenario.found Events) (Normal tt) (Normal tt).

(** The notification of the specification's scenario. *)
Definition alert : SES.SendEmailCommand :=
  email_command Scenario.all_up (lit "uploads")
    (lit "reports/malicious_invoice.pdf") Scenario.verdict
    Scenario.alice_details.

Definition rejected : error := ServiceError (lit "MessageRejected").

Definition malicious_response : Response :=
  {| statusCode := 200; body := body_Malicious |}.

(** The run of the specification's scenario, and the same run when the mail
    service rejects the message. *)
Definition remediated : M Response :=
  handler Scenario.Date_parse Scenario.all_up Scenario.flagged_upload.
Definition unannounced : M Response :=
  handler Scenario.Date_parse Scenario.mail_down Scenario.flagged_upload.

(** Records whose keys arrive as [reports/summary+2024.pdf] and as
    [reports/100%.pdf]. *)
Definition summary : S3.EventRecord := record (lit "reports/summary+2024.pdf").
Definition percent : S3.EventRecord := record (lit "reports/100%.pdf").

(** The run on [summary]. *)
Definition harmless : M Response :=
  handler Scenario.Date_parse Scenario.all_up {| S3.Records := [summary] |}.

End Samples.

(* ===================================================================== *)
(** * The storage service over time *)
(* ===================================================================== *)

Module Storage.

(** The storage service is not in the source; the handler reaches it through
    [s3Client.send].  The definitions of this module describe it as far as
    the specification does. *)

(** A state of the store: the objects it holds, as (bucket, key) pairs. *)
Definition Store : Type := list (jsstring * jsstring).

(** The object a delete command names. *)
Definition names (c : S3.DeleteObjectCommand) (o : jsstring * jsstring)
  : bool :=
  string_eqb (fst o) (S3.Bucket c) && string_eqb (snd o) (S3.Key c).


(** What the service answers to a delete command, by the state it is in. *)
Definition Service : Type :=
  Store -> S3.DeleteObjectCommand -> completion unit.


(** Modelled from the spec: by section 4.3 the end state of a delete is that
    the object does not exist.  A delete answered with success leaves the
    store without the object; one answered with an error leaves the store as
    it was. *)
Definition after (service : Service) (s : Store) (c : S3.DeleteObjectCommand)
  : Store :=
  match service s c with
  | Normal _ => filter (fun o => negb (names c o)) s
  | Throw _ => s
  end.






End Storage.

(** A zone whose clocks go back an hour at 2024-11-03T06:00:00Z, from four to
    five hours behind UTC (the end of daylight saving time in New York).  A
    local time that occurs twice takes the earlier offset. *)
Module Autumn.

Definition change : Z := 1730613600000.
Definition before : Z := -14400000.
Definition behind : Z := -18000000.

Definition zone : TimeZone :=
  {| LocalTZA := fun t isUTC =>
       if isUTC then (if t <? change then before else behind)
       else (if t <? change + before then before else behind) |}.

(** Ten minutes after the change: 2024-11-03T06:10:00Z. *)
Definition when : jsstring := lit "2024-11-03T06:10:00Z".

Definition Date_parse (s : jsstring) : option Z :=
  if string_eqb s when then Some 1730614200000 else None.

End Autumn.

(* ===================================================================== *)
(** * Decoding: auxiliary facts *)
(* ===================================================================== *)

Import KeyEncoding.

Ltac arith := solve [ lia | Z.div_mod_to_equations; lia ].

Ltac decide_cmp :=
  repeat match goal with
  | |- context [?a <? ?b] =>
      first [ replace (a <? b) with true by (symmetry; apply Z.ltb_lt; arith)
            | replace (a <? b) with false by (symmetry; apply Z.ltb_ge; arith) ]
  | |- context [?a <=? ?b] =>
      first [ replace (a <=? b) with true by (symmetry; apply Z.leb_le; arith)
            | replace (a <=? b) with false by (symmetry; apply Z.leb_gt; arith) ]
  | |- context [?a =? ?b] =>
      first [ replace (a =? b) with true by (symmetry; apply Z.eqb_eq; arith)
            | replace (a =? b) with false by (symmetry; apply Z.eqb_neq; arith) ]
  end; cbn [andb orb negb].

Lemma hex_value_upper d : 0 <= d < 16 -> hex_value (hex_upper d) = Some d.
Proof.
  intros H. unfold hex_value, hex_upper.
  destruct (Z.ltb_spec d 10); decide_cmp; f_equal; lia.
Qed.

Lemma ParseHexOctet_escape b :
  0 <= b < 256 -> ParseHexOctet (hex_upper (b / 16)) (hex_upper (b mod 16)) = Some b.
Proof.
  intros H. unfold ParseHexOctet.
  rewrite !hex_value_upper.
  - f_equal. pose proof (Z.div_mod b 16). lia.
  - apply Z.mod_pos_bound; lia.
  - split. apply Z.div_pos; lia. apply Z.div_lt_upper_bound; lia.
Qed.

Lemma Decode_escape h1 h2 rest B :
  ParseHexOctet h1 h2 = Some B ->
  Decode None (37 :: h1 :: h2 :: rest) =
  match leading_ones B with
  | 0 => map_completion (cons B) (Decode None rest)
  | 2 => Decode (Some (1%nat, [B])) rest
  | 3 => Decode (Some (2%nat, [B])) rest
  | 4 => Decode (Some (3%nat, [B])) rest
  | _ => Throw URIError
  end.
Proof. intros H. simpl. rewrite H. reflexivity. Qed.

Lemma Decode_pending_more h1 h2 rest B r octets :
  ParseHexOctet h1 h2 = Some B ->
  Decode (Some (S (S r), octets)) (37 :: h1 :: h2 :: rest) =
  Decode (Some (S r, octets ++ [B])) rest.
Proof. intros H. simpl. rewrite H. reflexivity. Qed.

Lemma Decode_pending_last h1 h2 rest B octets V :
  ParseHexOctet h1 h2 = Some B ->
  utf8_code_point (octets ++ [B]) = Some V ->
  Decode (Some (1%nat, octets)) (37 :: h1 :: h2 :: rest) =
  map_completion (app (UTF16EncodeCodePoint V)) (Decode None rest).
Proof.
  intros H HV. cbn [Decode]. rewrite H, HV. reflexivity.
Qed.

Lemma replace_plus_escape b :
  0 <= b < 256 ->
  replace_plus_with_space (percent_escape b) = percent_escape b.
Proof.
  intros H. unfold replace_plus_with_space, percent_escape. cbn [map].
  assert (Hd : forall d, 0 <= d < 16 -> (hex_upper d =? 43) = false).
  { intros d Hd. unfold hex_upper. apply Z.eqb_neq.
    destruct (Z.ltb_spec d 10); lia. }
  rewrite !Hd; [reflexivity | |].
  - apply Z.mod_pos_bound; lia.
  - split. apply Z.div_pos; lia. apply Z.div_lt_upper_bound; lia.
Qed.

Lemma escaped_octet safe b :
  literal_set safe -> 128 <= b < 256 ->
  replace_plus_with_space (encode_octet safe b) = percent_escape b.
Proof.
  intros Hs Hb. unfold encode_octet.
  replace (b =? 32) with false by (symmetry; apply Z.eqb_neq; lia).
  destruct (safe b) eqn:E.
  - apply Hs in E. lia.
  - apply replace_plus_escape. lia.
Qed.

Lemma utf8_octets_bounds V :
  scalar_value V -> Forall (fun b => 0 <= b < 256) (utf8_octets V).
Proof.
  intros H. unfold utf8_octets, scalar_value in *.
  destruct (Z.ltb_spec V 128); [|destruct (Z.ltb_spec V 2048); [|destruct (Z.ltb_spec V 65536)]];
    repeat constructor; Z.div_mod_to_equations; lia.
Qed.

Lemma Decode_code_point safe V rest :
  literal_set safe -> scalar_value V ->
  Decode None (replace_plus_with_space
                 (flat_map (encode_octet safe) (utf8_octets V)) ++ rest)
  = map_completion (app (UTF16EncodeCodePoint V)) (Decode None rest).
Proof.
  intros Hs HV. unfold utf8_octets.
  destruct (Z.ltb_spec V 128) as [H1|H1].
  - (* one octet *)
    assert (HU : UTF16EncodeCodePoint V = [V]).
    { unfold UTF16EncodeCodePoint. decide_cmp. reflexivity. }
    rewrite HU. cbn [flat_map]. rewrite app_nil_r.
    unfold encode_octet.
    destruct (Z.eqb_spec V 32) as [->|H32]; [reflexivity|].
    destruct (safe V) eqn:E.
    + apply Hs in E. cbn [replace_plus_with_space map app].
      replace (V =? 43) with false by (symmetry; apply Z.eqb_neq; lia).
      cbn [Decode].
      replace (V =? 37) with false by (symmetry; apply Z.eqb_neq; lia).
      reflexivity.
    + assert (Hb : 0 <= V < 256) by (unfold scalar_value in HV; lia).
      rewrite replace_plus_escape by exact Hb.
      unfold percent_escape. cbn [app].
      rewrite (Decode_escape _ _ _ V) by (apply ParseHexOctet_escape; exact Hb).
      unfold leading_ones. decide_cmp. reflexivity.
  - destruct (Z.ltb_spec V 2048) as [H2|H2]; [|destruct (Z.ltb_spec V 65536) as [H3|H3]].
    + (* two octets *)
      cbn [flat_map]. rewrite app_nil_r.
      unfold replace_plus_with_space. rewrite map_app.
      fold (replace_plus_with_space (encode_octet safe (192 + V / 64))).
      fold (replace_plus_with_space (encode_octet safe (128 + V mod 64))).
      assert (B0 : 192 <= 192 + V / 64 < 224) by (Z.div_mod_to_equations; lia).
      assert (B1 : 128 <= 128 + V mod 64 < 192) by (Z.div_mod_to_equations; lia).
      rewrite !(escaped_octet safe) by (assumption || lia).
      unfold percent_escape. cbn [app].
      rewrite (Decode_escape _ _ _ (192 + V / 64)) by (apply ParseHexOctet_escape; lia).
      unfold leading_ones at 1. decide_cmp.
      rewrite (Decode_pending_last _ _ _ (128 + V mod 64) _ V).
      * reflexivity.
      * apply ParseHexOctet_escape; lia.
      * cbn [app utf8_code_point]. unfold continuation. decide_cmp.
        f_equal. Z.div_mod_to_equations; lia.
    + (* three octets *)
      cbn [flat_map]. rewrite app_nil_r.
      unfold replace_plus_with_space. rewrite !map_app.
      fold (replace_plus_with_space (encode_octet safe (224 + V / 4096))).
      fold (replace_plus_with_space (encode_octet safe (128 + (V / 64) mod 64))).
      fold (replace_plus_with_space (encode_octet safe (128 + V mod 64))).
      assert (B0 : 224 <= 224 + V / 4096 < 240) by arith.
      assert (B1 : 128 <= 128 + (V / 64) mod 64 < 192) by arith.
      assert (B2 : 128 <= 128 + V mod 64 < 192) by arith.
      rewrite !(escaped_octet safe) by (assumption || lia).
      unfold percent_escape. cbn [app].
      rewrite (Decode_escape _ _ _ (224 + V / 4096)) by (apply ParseHexOctet_escape; lia).
      unfold leading_ones at 1. decide_cmp.
      rewrite (Decode_pending_more _ _ _ (128 + (V / 64) mod 64)) by (apply ParseHexOctet_escape; lia).
      rewrite (Decode_pending_last _ _ _ (128 + V mod 64) _ V).
      * reflexivity.
      * apply ParseHexOctet_escape; lia.
      * cbn [app utf8_code_point]. unfold continuation.
        unfold scalar_value in HV. decide_cmp.
        destruct (Z.eqb_spec (224 + V / 4096) 224);
          destruct (Z.eqb_spec (224 + V / 4096) 237); decide_cmp; f_equal; arith.
    + (* four octets *)
      unfold scalar_value in HV.
      cbn [flat_map]. rewrite app_nil_r.
      unfold replace_plus_with_space. rewrite !map_app.
      fold (replace_plus_with_space (encode_octet safe (240 + V / 262144))).
      fold (replace_plus_with_space (encode_octet safe (128 + (V / 4096) mod 64))).
      fold (replace_plus_with_space (encode_octet safe (128 + (V / 64) mod 64))).
      fold (replace_plus_with_space (encode_octet safe (128 + V mod 64))).
      assert (B0 : 240 <= 240 + V / 262144 < 245) by arith.
      assert (B1 : 128 <= 128 + (V / 4096) mod 64 < 192) by arith.
      assert (B2 : 128 <= 128 + (V / 64) mod 64 < 192) by arith.
      assert (B3 : 128 <= 128 + V mod 64 < 192) by arith.
      rewrite !(escaped_octet safe) by (assumption || lia).
      unfold percent_escape. cbn [app].
      rewrite (Decode_escape _ _ _ (240 + V / 262144)) by (apply ParseHexOctet_escape; lia).
      unfold leading_ones at 1. decide_cmp.
      rewrite (Decode_pending_more _ _ _ (128 + (V / 4096) mod 64)) by (apply ParseHexOctet_escape; lia).
      rewrite (Decode_pending_more _ _ _ (128 + (V / 64) mod 64)) by (apply ParseHexOctet_escape; lia).
      rewrite (Decode_pending_last _ _ _ (128 + V mod 64) _ V).
      * reflexivity.
      * apply ParseHexOctet_escape; lia.
      * cbn [app utf8_code_point]. unfold continuation. decide_cmp.
        destruct (Z.eqb_spec (240 + V / 262144) 240);
          destruct (Z.eqb_spec (240 + V / 262144) 244); decide_cmp; f_equal; arith.
Qed.

(* ===================================================================== *)
(** * The pipeline: auxiliary facts *)
(* ===================================================================== *)

Lemma bind_lift_Normal {A B : Type} (a : A) (k : A -> M B) :
  bind (lift (Normal a)) k = k a.
Proof. unfold bind, lift. cbn [fst snd app]. destruct (k a); reflexivity. Qed.

Lemma bind_lift_Throw {A B : Type} (e : error) (k : A -> M B) :
  bind (lift (Throw e)) k = throw e.
Proof. reflexivity. Qed.

Lemma bind_ret {A B : Type} (a : A) (k : A -> M B) : bind (ret a) k = k a.
Proof. apply bind_lift_Normal. Qed.

Lemma bind_perform_Normal {A B : Type} (eff : effect) (a : A) (k : A -> M B) :
  bind (perform eff (Normal a)) k = (eff :: fst (k a), snd (k a)).
Proof. reflexivity. Qed.

Lemma bind_perform_Throw {A B : Type} (eff : effect) (e : error) (k : A -> M B) :
  bind (perform eff (Throw e)) k = ([eff], Throw e).
Proof. reflexivity. Qed.

Lemma find_upload_skip bucket key event rest :
  readable event = true -> event_matches bucket key event = false ->
  find_upload bucket key (event :: rest) = find_upload bucket key rest.
Proof.
  unfold readable, event_matches. cbn [find_upload].
  destruct (CloudTrail.CloudTrailEvent event) as [| |r]; try discriminate.
  intros _ Hm. cbn [JSON_parse]. rewrite bind_lift_Normal. cbn [get].
  rewrite bind_lift_Normal, Hm. reflexivity.
Qed.

Lemma find_upload_hit bucket key event rest r u :
  CloudTrail.CloudTrailEvent event = CloudTrail.JSONValue r ->
  request_matches (CloudTrail.requestParameters r) bucket key = true ->
  CloudTrail.userIdentity r = Value u ->
  find_upload bucket key (event :: rest) = ret (Some (details_of r u)).
Proof.
  intros He Hm Hu. cbn [find_upload]. rewrite He. cbn [JSON_parse].
  rewrite bind_lift_Normal. cbn [get]. rewrite bind_lift_Normal, Hm.
  rewrite bind_lift_Normal, Hu. cbn [get]. rewrite !bind_lift_Normal.
  reflexivity.
Qed.

Lemma find_upload_unreadable bucket key event rest :
  readable event = false ->
  exists e, find_upload bucket key (event :: rest) = throw e.
Proof.
  unfold readable. cbn [find_upload].
  destruct (CloudTrail.CloudTrailEvent event) as [| |r]; try discriminate; intros _.
  - exists SyntaxError. reflexivity.
  - exists TypeError. reflexivity.
Qed.

Lemma find_upload_no_identity bucket key event rest r :
  CloudTrail.CloudTrailEvent event = CloudTrail.JSONValue r ->
  request_matches (CloudTrail.requestParameters r) bucket key = true ->
  is_set (CloudTrail.userIdentity r) = false ->
  find_upload bucket key (event :: rest) = throw TypeError.
Proof.
  intros He Hm Hu. cbn [find_upload]. rewrite He. cbn [JSON_parse].
  rewrite bind_lift_Normal. cbn [get]. rewrite bind_lift_Normal, Hm.
  rewrite bind_lift_Normal.
  destruct (CloudTrail.userIdentity r); try discriminate; reflexivity.
Qed.

Lemma find_upload_silent bucket key Events :
  fst (find_upload bucket key Events) = [].
Proof.
  induction Events as [|event rest IH]; [reflexivity|].
  destruct (readable event) eqn:Hr.
  - destruct (event_matches bucket key event) eqn:Hm.
    + unfold readable, event_matches in *.
      destruct (CloudTrail.CloudTrailEvent event) as [| |r] eqn:He; try discriminate.
      destruct (CloudTrail.userIdentity r) as [| |u] eqn:Hu.
      * rewrite (find_upload_no_identity _ _ _ _ r); auto. rewrite Hu; auto.
      * rewrite (find_upload_no_identity _ _ _ _ r); auto. rewrite Hu; auto.
      * rewrite (find_upload_hit _ _ _ _ r u); auto.
    + rewrite find_upload_skip; auto.
  - destruct (find_upload_unreadable bucket key event rest Hr) as [e ->].
    reflexivity.
Qed.

Lemma find_upload_found bucket key Events d :
  snd (find_upload bucket key Events) = Normal (Some d) ->
  exists event r u,
    In event Events
    /\ CloudTrail.CloudTrailEvent event = CloudTrail.JSONValue r
    /\ request_matches (CloudTrail.requestParameters r) bucket key = true
    /\ CloudTrail.userIdentity r = Value u
    /\ d = details_of r u.
Proof.
  induction Events as [|event rest IH]; [discriminate|].
  destruct (readable event) eqn:Hr.
  - destruct (event_matches bucket key event) eqn:Hm.
    + unfold readable, event_matches in *.
      destruct (CloudTrail.CloudTrailEvent event) as [| |r] eqn:He; try discriminate.
      destruct (CloudTrail.userIdentity r) as [| |u] eqn:Hu.
      * rewrite (find_upload_no_identity _ _ _ _ r); auto; [discriminate|]. rewrite Hu; auto.
      * rewrite (find_upload_no_identity _ _ _ _ r); auto; [discriminate|]. rewrite Hu; auto.
      * rewrite (find_upload_hit _ _ _ _ r u); auto. cbn. intros [= <-].
        exists event, r, u. repeat split; auto with datatypes.
    + rewrite find_upload_skip; auto. intros H.
      destruct (IH H) as (e & r & u & Hin & Hrest).
      exists e, r, u. split; [now right | exact Hrest].
  - destruct (find_upload_unreadable bucket key event rest Hr) as [e ->].
    discriminate.
Qed.


Section PipelineFacts.
Variable Date_parse : jsstring -> option Z.

Lemma getUploadDetailsFromCloudTrail_run w bucket key eventTime :
  exists log d,
    getUploadDetailsFromCloudTrail Date_parse w bucket key eventTime
    = (CloudTrailSend (lookup_command Date_parse (timeZone w) eventTime) :: log, Normal d)
    /\ deletes log = [] /\ notifications log = [] /\ scans log = []
    /\ (d = not_found eventTime
        \/ exists Events,
             cloudTrailClient_send w (lookup_command Date_parse (timeZone w) eventTime)
             = Normal {| CloudTrail.Events := Some Events |}
             /\ snd (find_upload bucket key Events) = Normal (Some d)).
Proof.
  unfold getUploadDetailsFromCloudTrail.
  destruct (cloudTrailClient_send w (lookup_command Date_parse (timeZone w) eventTime))
    as [[[Events|]]|e] eqn:Hsend.
  - rewrite bind_perform_Normal. cbn [CloudTrail.Events iterable].
    rewrite bind_lift_Normal.
    pose proof (find_upload_silent bucket key Events) as Hs.
    destruct (find_upload bucket key Events) as [t [[d|]|e]] eqn:Hf;
      cbn [fst] in Hs; subst t.
    + exists [], d. repeat split; auto. right. exists Events. rewrite Hf. auto.
    + exists [], (not_found eventTime). repeat split; auto.
    + eexists [_], (not_found eventTime). repeat split; auto.
  - rewrite bind_perform_Normal. cbn [CloudTrail.Events iterable].
    rewrite bind_lift_Throw.
    eexists [_], (not_found eventTime). repeat split; auto.
  - rewrite bind_perform_Throw.
    eexists [_], (not_found eventTime). repeat split; auto.
Qed.

End PipelineFacts.

Lemma deletes_app t u : deletes (t ++ u) = deletes t ++ deletes u.
Proof. induction t as [|[] t IH]; cbn; rewrite ?IH; reflexivity. Qed.

Lemma notifications_app t u :
  notifications (t ++ u) = notifications t ++ notifications u.
Proof. induction t as [|[] t IH]; cbn; rewrite ?IH; reflexivity. Qed.

Lemma scans_app t u : scans (t ++ u) = scans t ++ scans u.
Proof. induction t as [|[] t IH]; cbn; rewrite ?IH; reflexivity. Qed.

Lemma reported_app t u : reported (t ++ u) = reported t ++ reported u.
Proof. induction t as [|[] t IH]; cbn; rewrite ?IH; reflexivity. Qed.

Create Rewrite HintDb trace.
#[export] Hint Rewrite deletes_app notifications_app scans_app reported_app
  : trace.

Lemma scan_complete_Clean scanResult :
  isMalicious scanResult = false ->
  scan_complete scanResult = {| statusCode := 200; body := body_Clean |}.
Proof. intros H. unfold scan_complete. rewrite H. reflexivity. Qed.

Lemma scan_complete_Malicious scanResult :
  isMalicious scanResult = true ->
  scan_complete scanResult = {| statusCode := 200; body := body_Malicious |}.
Proof. intros H. unfold scan_complete. rewrite H. reflexivity. Qed.

(** ** The storage service *)




Lemma setMinutes_back_clip zone t :
  setMinutes zone (Some t) (minus (getMinutes zone (Some t)) 15)
  = TimeClip (UTC zone (LocalTime zone t - 900000)).
Proof.
  cbn [getMinutes minus option_map setMinutes]. cbv zeta. do 2 f_equal.
  generalize (LocalTime zone t). intros l.
  unfold MakeDate, MakeTime, Day, HourFromTime, MinFromTime, SecFromTime,
    msFromTime, msPerDay, msPerHour, msPerMinute, msPerSecond.
  Z.div_mod_to_equations. lia.
Qed.


Lemma string_eqb_eq s t : string_eqb s t = true <-> s = t.
Proof.
  revert t. induction s as [|a s IH]; intros [|b t]; cbn [string_eqb];
    try (split; [discriminate | intros H; discriminate H]); [tauto|].
  rewrite andb_true_iff, Z.eqb_eq, IH. split.
  - intros [-> ->]. reflexivity.
  - intros [= -> ->]. split; reflexivity.
Qed.

Lemma strict_equals_eq f s : strict_equals f s = true <-> f = Value s.
Proof.
  destruct f as [| |t]; cbn [strict_equals];
    try (split; [discriminate | intros H; discriminate H]).
  rewrite string_eqb_eq. split; [intros ->; reflexivity | intros [= ->]; reflexivity].
Qed.


Section HandlerFacts.
Variable Date_parse : jsstring -> option Z.
Variables (scan : Scanner) (w : World).

Lemma handler_with_no_record :
  handler_with Date_parse scan w {| S3.Records := [] |} = throw TypeError.
Proof. reflexivity. Qed.

Lemma handler_with_undecodable r rest e :
  decodeURIComponent (replace_plus_with_space (S3.object_key r)) = Throw e ->
  handler_with Date_parse scan w {| S3.Records := r :: rest |} = throw e.
Proof.
  intros H. unfold handler_with. cbn [S3.Records nth_error].
  rewrite bind_lift_Normal, H. reflexivity.
Qed.

Lemma handler_with_first_record r rest key :
  decodeURIComponent (replace_plus_with_space (S3.object_key r)) = Normal key ->
  handler_with Date_parse scan w {| S3.Records := r :: rest |}
  = try_catch
      (handler_try Date_parse scan w (S3.bucket_name r) key (S3.eventTime r))
      handler_catch.
Proof.
  intros H. unfold handler_with. cbn [S3.Records nth_error].
  rewrite bind_lift_Normal, H, !bind_lift_Normal. reflexivity.
Qed.

Lemma bind_pair_Normal {A B : Type} t (a : A) (k : A -> M B) :
  bind (t, Normal a) k = (t ++ fst (k a), snd (k a)).
Proof. reflexivity. Qed.

Lemma bind_pair_Throw {A B : Type} t e (k : A -> M B) :
  bind (t, Throw e) k = (t, Throw e).
Proof. reflexivity. Qed.

Lemma try_catch_Normal {A : Type} t (a : A) h :
  try_catch (t, Normal a) h = (t, Normal a).
Proof. reflexivity. Qed.

Lemma try_catch_handler t e :
  try_catch (t, Throw e) handler_catch
  = (t ++ [ConsoleError (lit "An error occurred in the handler:") e], Throw e).
Proof. reflexivity. Qed.

Lemma handler_try_scan_failure bucket key eventTime e :
  scan bucket key = Throw e ->
  handler_try Date_parse scan w bucket key eventTime
  = ([ScanObject bucket key], Throw e).
Proof. intros H. unfold handler_try. rewrite H. reflexivity. Qed.

Lemma handler_try_clean bucket key eventTime scanResult :
  scan bucket key = Normal scanResult ->
  isMalicious scanResult = false ->
  handler_try Date_parse scan w bucket key eventTime
  = ([ScanObject bucket key], Normal (scan_complete scanResult)).
Proof.
  intros H Hc. unfold handler_try. rewrite H, bind_perform_Normal, Hc.
  rewrite !bind_ret. reflexivity.
Qed.

Lemma handler_try_malicious bucket key eventTime scanResult log uploadDetails :
  scan bucket key = Normal scanResult ->
  isMalicious scanResult = true ->
  getUploadDetailsFromCloudTrail Date_parse w bucket key eventTime
  = (log, Normal uploadDetails) ->
  handler_try Date_parse scan w bucket key eventTime
  = (ScanObject bucket key :: log
       ++ S3Send {| S3.Bucket := bucket; S3.Key := key |}
       :: match s3Client_send w {| S3.Bucket := bucket; S3.Key := key |} with
          | Normal _ =>
              [SESSend (email_command w bucket key scanResult uploadDetails)]
          | Throw _ => []
          end,
     match s3Client_send w {| S3.Bucket := bucket; S3.Key := key |} with
     | Normal _ =>
         match sesClient_send w
                 (email_command w bucket key scanResult uploadDetails) with
         | Normal _ => Normal (scan_complete scanResult)
         | Throw e => Throw e
         end
     | Throw e => Throw e
     end).
Proof.
  intros H Hm Hd. unfold handler_try.
  rewrite H, bind_perform_Normal, Hm, Hd.
  rewrite (bind_pair_Normal log uploadDetails). cbv beta.
  destruct (s3Client_send w {| S3.Bucket := bucket; S3.Key := key |}) as [[]|e];
    [destruct (sesClient_send w
                 (email_command w bucket key scanResult uploadDetails)) as [[]|e]|];
    unfold perform, ret;
    repeat (rewrite ?bind_pair_Normal, ?bind_pair_Throw; cbn [fst snd app]);
    rewrite ?app_nil_r; reflexivity.
Qed.

End HandlerFacts.

Section RunFacts.
Variable Date_parse : jsstring -> option Z.
Variables (scan : Scanner) (w : World).

Lemma handler_with_scan_failure r rest key e :
  decodeURIComponent (replace_plus_with_space (S3.object_key r)) = Normal key ->
  scan (S3.bucket_name r) key = Throw e ->
  handler_with Date_parse scan w {| S3.Records := r :: rest |}
  = ([ScanObject (S3.bucket_name r) key;
      ConsoleError (lit "An error occurred in the handler:") e], Throw e).
Proof.
  intros Hkey Hscan. rewrite (handler_with_first_record _ _ _ _ _ _ Hkey).
  rewrite (handler_try_scan_failure _ _ _ _ _ _ _ Hscan). reflexivity.
Qed.

Lemma handler_with_malicious r rest key scanResult log uploadDetails :
  decodeURIComponent (replace_plus_with_space (S3.object_key r)) = Normal key ->
  scan (S3.bucket_name r) key = Normal scanResult ->
  isMalicious scanResult = true ->
  getUploadDetailsFromCloudTrail Date_parse w
    (S3.bucket_name r) key (S3.eventTime r) = (log, Normal uploadDetails) ->
  handler_with Date_parse scan w {| S3.Records := r :: rest |}
  = match s3Client_send w {| S3.Bucket := S3.bucket_name r; S3.Key := key |} with
    | Throw e =>
        (ScanObject (S3.bucket_name r) key :: log
           ++ [S3Send {| S3.Bucket := S3.bucket_name r; S3.Key := key |};
               ConsoleError (lit "An error occurred in the handler:") e],
         Throw e)
    | Normal _ =>
        match sesClient_send w
                (email_command w (S3.bucket_name r) key scanResult
                   uploadDetails) with
        | Throw e =>
            (ScanObject (S3.bucket_name r) key :: log
               ++ [S3Send {| S3.Bucket := S3.bucket_name r; S3.Key := key |};
                   SESSend (email_command w (S3.bucket_name r) key scanResult
                              uploadDetails);
                   ConsoleError (lit "An error occurred in the handler:") e],
             Throw e)
        | Normal _ =>
            (ScanObject (S3.bucket_name r) key :: log
               ++ [S3Send {| S3.Bucket := S3.bucket_name r; S3.Key := key |};
                   SESSend (email_command w (S3.bucket_name r) key scanResult
                              uploadDetails)],
             Normal (scan_complete scanResult))
        end
    end.
Proof.
  intros Hkey Hscan Hmal Hrun.
  rewrite (handler_with_first_record _ _ _ _ _ _ Hkey).
  rewrite (handler_try_malicious _ _ _ _ _ _ _ _ _ Hscan Hmal Hrun).
  destruct (s3Client_send w _) as [[]|e];
    [destruct (sesClient_send w _) as [[]|e]|];
    rewrite ?try_catch_Normal, ?try_catch_handler;
    cbn [app]; rewrite <- ?app_assoc; reflexivity.
Qed.

End RunFacts.

(** Replaces an event known to have a first record by that list. *)
Ltac first_record Hrec :=
  match type of Hrec with
  | S3.Records ?event = _ =>
      destruct event as [records]; cbn [S3.Records] in Hrec; subst records
  end.

(** Reads the observations off a trace given as conses and appends. *)
Ltac observe :=
  unfold calls, result; cbn [fst snd];
  cbn [deletes notifications reported scans];
  autorewrite with trace;
  cbn [deletes notifications reported scans].

Lemma decode_key_round_trip safe key :
  literal_set safe -> Forall scalar_value key ->
  decodeURIComponent (replace_plus_with_space (encode_key safe key))
  = Normal (stored_key key).
Proof.
  intros Hsafe Hkey. unfold decodeURIComponent.
  induction Hkey as [|V key HV _ IH]; [reflexivity|].
  unfold encode_key, stored_key in *. cbn [flat_map].
  unfold replace_plus_with_space in *. rewrite map_app.
  fold (replace_plus_with_space
          (flat_map (encode_octet safe) (utf8_octets V))).
  rewrite (Decode_code_point safe V _ Hsafe HV), IH. reflexivity.
Qed.

Lemma handler_with_scans Date_parse scan w r rest key :
  decodeURIComponent (replace_plus_with_space (S3.object_key r)) = Normal key ->
  scans (calls (handler_with Date_parse scan w {| S3.Records := r :: rest |}))
  = [(S3.bucket_name r, key)].
Proof.
  intros Hkey.
  destruct (scan (S3.bucket_name r) key) as [scanResult|e] eqn:Hscan.
  2: { rewrite (handler_with_scan_failure _ _ _ _ _ _ _ Hkey Hscan).
       reflexivity. }
  destruct (isMalicious scanResult) eqn:Hmal.
  - destruct (getUploadDetailsFromCloudTrail_run Date_parse w
                (S3.bucket_name r) key (S3.eventTime r))
      as (log & d & Hrun & Hd & Hn & Hs & _).
    rewrite (handler_with_malicious _ _ _ _ _ _ _ _ _ Hkey Hscan Hmal Hrun).
    destruct (s3Client_send w _) as [[]|e];
      [destruct (sesClient_send w _) as [[]|e]|];
      observe; rewrite Hs; reflexivity.
  - rewrite (handler_with_first_record _ _ _ _ _ _ Hkey).
    rewrite (handler_try_clean _ _ _ _ _ _ _ Hscan Hmal). reflexivity.
Qed.

Lemma unreserved_literal : literal_set unreserved.
Proof.
  intros b. unfold unreserved. rewrite !orb_true_iff, !andb_true_iff.
  rewrite !Z.leb_le, !Z.eqb_eq. lia.
Defined.

Lemma awkward_key_scalar : Forall scalar_value Scenario.awkward_key.
Proof. repeat constructor; unfold scalar_value; lia. Defined.

(* ===================================================================== *)
(** * Sanity checks of the runtime model *)
(* ===================================================================== *)

Example decode_plus_then_percent :
  decodeURIComponent (replace_plus_with_space (lit "my+folder/file+%281%29.txt"))
  = Normal (lit "my folder/file (1).txt").
Proof. reflexivity. Qed.

Example decode_escaped_plus :
  decodeURIComponent (replace_plus_with_space (lit "a%2Bb")) = Normal (lit "a+b").
Proof. reflexivity. Qed.

Example decode_euro_and_emoji :
  decodeURIComponent (lit "%E2%82%AC%F0%9F%98%80") = Normal [8364; 55357; 56832].
Proof. reflexivity. Qed.

Example decode_rejects_bad_hex : decodeURIComponent (lit "%zz") = Throw URIError.
Proof. reflexivity. Qed.

Example decode_rejects_truncated : decodeURIComponent (lit "a%2") = Throw URIError.
Proof. reflexivity. Qed.

Example decode_rejects_overlong : decodeURIComponent (lit "%C0%80") = Throw URIError.
Proof. reflexivity. Qed.

Example decode_rejects_surrogate :
  decodeURIComponent (lit "%ED%A0%80") = Throw URIError.
Proof. reflexivity. Qed.

Example scanner_ignores_case :
  scanWithCrowdstrike (lit "uploads") (lit "Reports/MALICIOUS.bin")
  = Normal Scenario.verdict.
Proof. reflexivity. Qed.

Example fifteen_minutes_before :
  CloudTrail.StartTime (lookup_command Scenario.Date_parse Scenario.zone Scenario.when)
  = Some 1704102300000.
Proof. reflexivity. Qed.

Example invalid_date_gives_no_window :
  lookup_command Scenario.Date_parse Scenario.zone (lit "yesterday")
  = {| CloudTrail.LookupAttributes :=
         [ {| CloudTrail.AttributeKey := lit "EventName";
              CloudTrail.AttributeValue := lit "PutObject" |} ];
       CloudTrail.StartTime := None;
       CloudTrail.EndTime := None |}.
Proof. reflexivity. Qed.

Example flagged_upload_run :
  calls (handler Scenario.Date_parse Scenario.all_up Scenario.flagged_upload)
  = [ ScanObject (lit "uploads") (lit "reports/malicious_invoice.pdf");
      CloudTrailSend (lookup_command Scenario.Date_parse Scenario.zone Scenario.when);
      S3Send Scenario.flagged;
      SESSend (email_command Scenario.all_up (lit "uploads")
                 (lit "reports/malicious_invoice.pdf") Scenario.verdict
                 Scenario.alice_details) ].
Proof. reflexivity. Qed.

Example alert_names_the_uploader :
  let text :=
    SES.Message_Body_Text_Data
      (email_command Scenario.all_up (lit "uploads")
         (lit "reports/malicious_invoice.pdf") Scenario.verdict
         Scenario.alice_details) in
  includes text (lit "alice") = true
  /\ includes text (lit "203.0.113.5") = true.
Proof. split; reflexivity. Qed.

(* ===================================================================== *)
(** * The properties of the pipeline *)
(* ===================================================================== *)

(** C1.  For every upload event for which the scanner returns a result with
    [isMalicious = false], the handler sends no delete command and no
    notification, and returns status code 200 with the body
    [{"message":"Scan complete.","status":"Clean"}]. *)
Theorem clean_verdict_takes_no_action
    Date_parse scan w event r rest key scanResult :
  S3.Records event = r :: rest ->
  decodeURIComponent (replace_plus_with_space (S3.object_key r)) = Normal key ->
  scan (S3.bucket_name r) key = Normal scanResult ->
  isMalicious scanResult = false ->
  deletes (calls (handler_with Date_parse scan w event)) = []
  /\ notifications (calls (handler_with Date_parse scan w event)) = []
  /\ result (handler_with Date_parse scan w event)
     = Normal {| statusCode := 200; body := body_Clean |}.
Proof.
  intros Hrec Hkey Hscan Hclean. first_record Hrec.
  rewrite (handler_with_first_record _ _ _ _ _ _ Hkey).
  rewrite (handler_try_clean _ _ _ _ _ _ _ Hscan Hclean), try_catch_Normal.
  rewrite (scan_complete_Clean _ Hclean). repeat split.
Qed.

(** The placeholder scanner on an object whose key holds no "malicious":
    the key arrives as [reports/summary+2024.pdf]. *)
Lemma clean_verdict_sample :
  scanWithCrowdstrike (lit "uploads") (lit "reports/summary 2024.pdf")
  = Normal {| isMalicious := false;
              details := lit "Scan complete. No threats found." |}
  /\ (deletes (calls (handler Scenario.Date_parse Scenario.all_up
                               Scenario.harmless_upload)) = []
      /\ notifications (calls (handler Scenario.Date_parse Scenario.all_up
                                       Scenario.harmless_upload)) = []
      /\ result (handler Scenario.Date_parse Scenario.all_up
                         Scenario.harmless_upload)
         = Normal {| statusCode := 200; body := body_Clean |}).
Proof.
  split; [reflexivity|].
  exact (clean_verdict_takes_no_action Scenario.Date_parse
           scanWithCrowdstrike Scenario.all_up Scenario.harmless_upload
           _ [] (lit "reports/summary 2024.pdf") _
           eq_refl eq_refl eq_refl eq_refl).
Defined.

(** C2.  For every upload event for which the scanner returns
    [isMalicious = true] and both the delete call and the notify call
    succeed, the handler sends exactly one delete command, for the event's
    bucket and decoded key, and exactly one notification, reports no error of
    its own, and returns status code 200 with the body
    [{"message":"Scan complete.","status":"Malicious"}]. *)
Theorem malicious_verdict_is_remediated
    Date_parse scan w event r rest key scanResult uploadDetails :
  S3.Records event = r :: rest ->
  decodeURIComponent (replace_plus_with_space (S3.object_key r)) = Normal key ->
  scan (S3.bucket_name r) key = Normal scanResult ->
  isMalicious scanResult = true ->
  result (getUploadDetailsFromCloudTrail Date_parse w
            (S3.bucket_name r) key (S3.eventTime r)) = Normal uploadDetails ->
  s3Client_send w {| S3.Bucket := S3.bucket_name r; S3.Key := key |}
  = Normal tt ->
  sesClient_send w
    (email_command w (S3.bucket_name r) key scanResult uploadDetails)
  = Normal tt ->
  deletes (calls (handler_with Date_parse scan w event))
  = [ {| S3.Bucket := S3.bucket_name r; S3.Key := key |} ]
  /\ notifications (calls (handler_with Date_parse scan w event))
     = [ email_command w (S3.bucket_name r) key scanResult uploadDetails ]
  /\ reported (calls (handler_with Date_parse scan w event))
     = reported (calls (getUploadDetailsFromCloudTrail Date_parse w
                          (S3.bucket_name r) key (S3.eventTime r)))
  /\ result (handler_with Date_parse scan w event)
     = Normal {| statusCode := 200; body := body_Malicious |}.
Proof.
  intros Hrec Hkey Hscan Hmal Hup Hdel Hmail. first_record Hrec.
  destruct (getUploadDetailsFromCloudTrail_run Date_parse w
              (S3.bucket_name r) key (S3.eventTime r))
    as (log & d & Hrun & Hd & Hn & Hs & _).
  rewrite Hrun in Hup. cbn in Hup. injection Hup as ->.
  rewrite (handler_with_malicious _ _ _ _ _ _ _ _ _ Hkey Hscan Hmal Hrun).
  rewrite Hdel, Hmail, Hrun, (scan_complete_Malicious _ Hmal).
  observe. rewrite Hd, Hn, app_nil_r. repeat split.
Qed.

(** The scenario of the specification: [reports/malicious_invoice.pdf] in
    [uploads], uploaded by alice from 203.0.113.5. *)
Lemma malicious_verdict_sample :
  result (getUploadDetailsFromCloudTrail Scenario.Date_parse Scenario.all_up
            (lit "uploads") (lit "reports/malicious_invoice.pdf") Scenario.when)
  = Normal Scenario.alice_details
  /\ (deletes (calls (handler Scenario.Date_parse Scenario.all_up
                               Scenario.flagged_upload))
      = [Scenario.flagged]
      /\ notifications (calls (handler Scenario.Date_parse Scenario.all_up
                                       Scenario.flagged_upload))
         = [email_command Scenario.all_up (lit "uploads")
              (lit "reports/malicious_invoice.pdf") Scenario.verdict
              Scenario.alice_details]
      /\ reported (calls (handler Scenario.Date_parse Scenario.all_up
                                  Scenario.flagged_upload)) = []
      /\ result (handler Scenario.Date_parse Scenario.all_up
                         Scenario.flagged_upload)
         = Normal {| statusCode := 200; body := body_Malicious |}).
Proof.
  split; [reflexivity|].
  exact (malicious_verdict_is_remediated Scenario.Date_parse
           scanWithCrowdstrike Scenario.all_up Scenario.flagged_upload
           _ [] (lit "reports/malicious_invoice.pdf") Scenario.verdict
           Scenario.alice_details
           eq_refl eq_refl eq_refl eq_refl eq_refl eq_refl eq_refl).
Defined.

(** C3, as amended.  When the scan is malicious, the delete call succeeds and
    the notify call fails with an error [e], the handler has sent one delete
    command and one notification, writes [e] with [console.error], and
    rethrows [e] to its invoker: the run fails with [e] and returns no
    result. *)
Theorem notify_failure_is_rethrown
    Date_parse scan w event r rest key scanResult uploadDetails e :
  S3.Records event = r :: rest ->
  decodeURIComponent (replace_plus_with_space (S3.object_key r)) = Normal key ->
  scan (S3.bucket_name r) key = Normal scanResult ->
  isMalicious scanResult = true ->
  result (getUploadDetailsFromCloudTrail Date_parse w
            (S3.bucket_name r) key (S3.eventTime r)) = Normal uploadDetails ->
  s3Client_send w {| S3.Bucket := S3.bucket_name r; S3.Key := key |}
  = Normal tt ->
  sesClient_send w
    (email_command w (S3.bucket_name r) key scanResult uploadDetails)
  = Throw e ->
  deletes (calls (handler_with Date_parse scan w event))
  = [ {| S3.Bucket := S3.bucket_name r; S3.Key := key |} ]
  /\ notifications (calls (handler_with Date_parse scan w event))
     = [ email_command w (S3.bucket_name r) key scanResult uploadDetails ]
  /\ reported (calls (handler_with Date_parse scan w event))
     = reported (calls (getUploadDetailsFromCloudTrail Date_parse w
                          (S3.bucket_name r) key (S3.eventTime r))) ++ [e]
  /\ result (handler_with Date_parse scan w event) = Throw e.
Proof.
  intros Hrec Hkey Hscan Hmal Hup Hdel Hmail. first_record Hrec.
  destruct (getUploadDetailsFromCloudTrail_run Date_parse w
              (S3.bucket_name r) key (S3.eventTime r))
    as (log & d & Hrun & Hd & Hn & Hs & _).
  rewrite Hrun in Hup. cbn in Hup. injection Hup as ->.
  rewrite (handler_with_malicious _ _ _ _ _ _ _ _ _ Hkey Hscan Hmal Hrun).
  rewrite Hdel, Hmail, Hrun. observe. rewrite Hd, Hn. repeat split.
Qed.

(** A run in which SES rejects the message. *)
Lemma notify_failure_sample :
  sesClient_send Scenario.mail_down
    (email_command Scenario.mail_down (lit "uploads")
       (lit "reports/malicious_invoice.pdf") Scenario.verdict
       Scenario.alice_details)
  = Throw (ServiceError (lit "MessageRejected"))
  /\ (deletes (calls (handler Scenario.Date_parse Scenario.mail_down
                               Scenario.flagged_upload))
      = [Scenario.flagged]
      /\ notifications (calls (handler Scenario.Date_parse Scenario.mail_down
                                       Scenario.flagged_upload))
         = [email_command Scenario.mail_down (lit "uploads")
              (lit "reports/malicious_invoice.pdf") Scenario.verdict
              Scenario.alice_details]
      /\ reported (calls (handler Scenario.Date_parse Scenario.mail_down
                                  Scenario.flagged_upload))
         = [] ++ [ServiceError (lit "MessageRejected")]
      /\ result (handler Scenario.Date_parse Scenario.mail_down
                         Scenario.flagged_upload)
         = Throw (ServiceError (lit "MessageRejected"))).
Proof.
  split; [reflexivity|].
  exact (notify_failure_is_rethrown Scenario.Date_parse
           scanWithCrowdstrike Scenario.mail_down Scenario.flagged_upload
           _ [] (lit "reports/malicious_invoice.pdf") Scenario.verdict
           Scenario.alice_details (ServiceError (lit "MessageRejected"))
           eq_refl eq_refl eq_refl eq_refl eq_refl eq_refl eq_refl).
Defined.

(** C3 as stated does not hold: with a malicious scan, a successful delete
    and a failing notify, the handler does not return a degraded outcome; it
    throws. *)
Lemma notify_failure_fails_the_run :
  scanWithCrowdstrike (lit "uploads") (lit "reports/malicious_invoice.pdf")
  = Normal Scenario.verdict
  /\ s3Client_send Scenario.mail_down Scenario.flagged = Normal tt
  /\ sesClient_send Scenario.mail_down
       (email_command Scenario.mail_down (lit "uploads")
          (lit "reports/malicious_invoice.pdf") Scenario.verdict
          Scenario.alice_details)
     = Throw (ServiceError (lit "MessageRejected"))
  /\ ~ returns (handler Scenario.Date_parse Scenario.mail_down
                  Scenario.flagged_upload).
Proof.
  repeat split. intros [a Ha]. discriminate Ha.
Qed.




(** C5.  For every run in which the scanner throws [e], or the scan is
    malicious and the delete call throws [e], the handler rethrows [e] to its
    invoker after writing it with [console.error]; it returns no result, so
    none that reads "Clean" or "Malicious", and sends no notification.  A
    scanner failure is not read as a verdict: no delete command is sent
    either. *)
Theorem scan_or_delete_failure_propagates
    Date_parse scan w event r rest key e :
  S3.Records event = r :: rest ->
  decodeURIComponent (replace_plus_with_space (S3.object_key r)) = Normal key ->
  (scan (S3.bucket_name r) key = Throw e
   \/ (exists scanResult,
         scan (S3.bucket_name r) key = Normal scanResult
         /\ isMalicious scanResult = true
         /\ s3Client_send w {| S3.Bucket := S3.bucket_name r; S3.Key := key |}
            = Throw e)) ->
  result (handler_with Date_parse scan w event) = Throw e
  /\ ~ returns (handler_with Date_parse scan w event)
  /\ In e (reported (calls (handler_with Date_parse scan w event)))
  /\ notifications (calls (handler_with Date_parse scan w event)) = []
  /\ (scan (S3.bucket_name r) key = Throw e ->
      deletes (calls (handler_with Date_parse scan w event)) = []).
Proof.
  intros Hrec Hkey Hfail. first_record Hrec.
  destruct Hfail as [Hscan | (scanResult & Hscan & Hmal & Hdel)].
  - rewrite (handler_with_scan_failure _ _ _ _ _ _ _ Hkey Hscan).
    repeat split.
    + intros [a Ha]. discriminate Ha.
    + observe. now left.
  - destruct (getUploadDetailsFromCloudTrail_run Date_parse w
                (S3.bucket_name r) key (S3.eventTime r))
      as (log & d & Hrun & Hd & Hn & Hs & _).
    rewrite (handler_with_malicious _ _ _ _ _ _ _ _ _ Hkey Hscan Hmal Hrun).
    rewrite Hdel. repeat split.
    + intros [a Ha]. discriminate Ha.
    + observe. apply in_or_app. right. now left.
    + observe. rewrite Hn. reflexivity.
    + intros Hthrow. rewrite Hthrow in Hscan. discriminate Hscan.
Qed.

(** A run with a scanner that cannot be reached. *)
Lemma scan_failure_sample :
  Scenario.unreachable (lit "uploads") (lit "reports/malicious_invoice.pdf")
  = Throw (ServiceError (lit "ScanUnavailable"))
  /\ (result (handler_with Scenario.Date_parse Scenario.unreachable
                Scenario.all_up Scenario.flagged_upload)
      = Throw (ServiceError (lit "ScanUnavailable"))
      /\ ~ returns (handler_with Scenario.Date_parse Scenario.unreachable
                      Scenario.all_up Scenario.flagged_upload)
      /\ In (ServiceError (lit "ScanUnavailable"))
            (reported (calls (handler_with Scenario.Date_parse
                                Scenario.unreachable Scenario.all_up
                                Scenario.flagged_upload)))
      /\ notifications (calls (handler_with Scenario.Date_parse
                                 Scenario.unreachable Scenario.all_up
                                 Scenario.flagged_upload)) = []
      /\ (Scenario.unreachable (lit "uploads")
            (lit "reports/malicious_invoice.pdf")
          = Throw (ServiceError (lit "ScanUnavailable")) ->
          deletes (calls (handler_with Scenario.Date_parse
                            Scenario.unreachable Scenario.all_up
                            Scenario.flagged_upload)) = [])).
Proof.
  split; [reflexivity|].
  exact (scan_or_delete_failure_propagates Scenario.Date_parse
           Scenario.unreachable Scenario.all_up Scenario.flagged_upload
           _ [] (lit "reports/malicious_invoice.pdf")
           (ServiceError (lit "ScanUnavailable"))
           eq_refl eq_refl (or_introl eq_refl)).
Defined.



(** C7.  The handler decodes the object key of the record by replacing every
    [+] with a space and then percent-decoding: the scanner is called once,
    with the key so decoded, and a key that cannot be percent-decoded makes
    the handler throw before any call.  For every key, whatever it contains,
    decoding its encoded form gives the key back as stored. *)
Theorem object_key_decoding Date_parse scan w :
  (forall r rest,
     match decodeURIComponent (replace_plus_with_space (S3.object_key r)) with
     | Normal key =>
         scans (calls (handler_with Date_parse scan w
                         {| S3.Records := r :: rest |}))
         = [(S3.bucket_name r, key)]
     | Throw e =>
         handler_with Date_parse scan w {| S3.Records := r :: rest |}
         = ([], Throw e)
     end)
  /\ (forall safe key,
        literal_set safe -> Forall scalar_value key ->
        decodeURIComponent (replace_plus_with_space (encode_key safe key))
        = Normal (stored_key key)).
Proof.
  split.
  - intros r rest.
    destruct (decodeURIComponent (replace_plus_with_space (S3.object_key r)))
      as [key|e] eqn:Hkey.
    + apply handler_with_scans, Hkey.
    + apply (handler_with_undecodable _ _ _ _ _ _ Hkey).
  - apply decode_key_round_trip.
Qed.

(** The key [a b+c%] followed by U+00E9, U+20AC and U+1F600. *)
Lemma object_key_decoding_sample :
  encode_key unreserved Scenario.awkward_key
  = lit "a+b%2Bc%25%C3%A9%E2%82%AC%F0%9F%98%80"
  /\ decodeURIComponent
       (replace_plus_with_space (encode_key unreserved Scenario.awkward_key))
     = Normal (stored_key Scenario.awkward_key).
Proof.
  split; [reflexivity|].
  exact (proj2 (object_key_decoding Scenario.Date_parse scanWithCrowdstrike
                  Scenario.all_up)
           unreserved Scenario.awkward_key unreserved_literal
           awkward_key_scalar).
Defined.




(** C9, as amended.  The identity correlator always returns an UploadDetails,
    which is either the sentinel, whose three fields are all set, or read from
    a returned event that matches (bucket, key) and carries a user identity:
    [user] is the ARN when that is a non-empty string and the principal ID
    otherwise, [ipAddress] is the record's [sourceIPAddress] and [uploadTime]
    its [eventTime].  In the second case it is fully populated exactly when
    the record has a non-empty ARN or a principal ID, a [sourceIPAddress] and
    an [eventTime]. *)
Theorem upload_details_origin Date_parse w bucket key eventTime :
  exists uploadDetails,
    result (getUploadDetailsFromCloudTrail Date_parse w bucket key eventTime)
    = Normal uploadDetails
    /\ ((uploadDetails = not_found eventTime
         /\ fully_populated uploadDetails = true)
        \/ exists Events audit a u,
             cloudTrailClient_send w (lookup_command Date_parse (timeZone w) eventTime)
             = Normal {| CloudTrail.Events := Some Events |}
             /\ In audit Events
             /\ CloudTrail.CloudTrailEvent audit = CloudTrail.JSONValue a
             /\ request_matches (CloudTrail.requestParameters a) bucket key
                = true
             /\ CloudTrail.userIdentity a = Value u
             /\ uploadDetails = details_of a u
             /\ fully_populated uploadDetails
                = (truthy (CloudTrail.arn u) || is_set (CloudTrail.principalId u))
                  && is_set (CloudTrail.sourceIPAddress a)
                  && is_set (CloudTrail.eventTime a)).
Proof.
  destruct (getUploadDetailsFromCloudTrail_run Date_parse w bucket key eventTime)
    as (log & d & Hrun & _ & _ & _ & Hwhich).
  exists d. rewrite Hrun. split; [reflexivity|].
  destruct Hwhich as [-> | (Events & Hsend & Hfound)].
  - left. split; reflexivity.
  - right.
    destruct (find_upload_found _ _ _ _ Hfound)
      as (audit & a & u & Hin & Htext & Hmatch & Hu & ->).
    exists Events, audit, a, u. repeat split; try assumption.
    unfold fully_populated, details_of, or_else. cbn [user ipAddress uploadTime].
    destruct (CloudTrail.arn u) as [| |[|c s]]; reflexivity.
Qed.

(** C9 as stated does not hold: for a matching event whose user identity has
    neither an ARN nor a principal ID, [user] is [undefined]. *)
Lemma identity_without_identifiers_is_undefined :
  event_matches (lit "uploads") (lit "reports/malicious_invoice.pdf")
    Scenario.by_nobody = true
  /\ result (getUploadDetailsFromCloudTrail Scenario.Date_parse
               (Scenario.world (Scenario.found [Scenario.by_nobody])
                  (Normal tt) (Normal tt))
               (lit "uploads") (lit "reports/malicious_invoice.pdf")
               Scenario.when)
     = Normal {| user := Undefined;
                 ipAddress := Value (lit "203.0.113.5");
                 uploadTime := Value (lit "2024-01-01T09:59:58Z") |}
  /\ fully_populated {| user := Undefined;
                        ipAddress := Value (lit "203.0.113.5");
                        uploadTime := Value (lit "2024-01-01T09:59:58Z") |}
     = false.
Proof. repeat split. Qed.

(** C10.  The handler processes only the first element of [Records]: its run
    on an event is its run on the event cut down to its first record, with at
    most one scan, one delete command and one notification; on an empty
    [Records] it throws a TypeError before any call. *)
Theorem only_the_first_record_is_processed Date_parse scan w :
  (forall r rest,
     handler_with Date_parse scan w {| S3.Records := r :: rest |}
     = handler_with Date_parse scan w {| S3.Records := [r] |})
  /\ (forall event,
        (List.length (scans (calls (handler_with Date_parse scan w event))) <= 1)%nat
        /\ (List.length (deletes (calls (handler_with Date_parse scan w event)))
            <= 1)%nat
        /\ (List.length (notifications
                      (calls (handler_with Date_parse scan w event))) <= 1)%nat)
  /\ handler_with Date_parse scan w {| S3.Records := [] |}
     = ([], Throw TypeError).
Proof.
  split; [reflexivity|]. split; [|reflexivity].
  intros [[|r rest]]; [repeat split; apply Nat.le_0_l|].
  destruct (decodeURIComponent (replace_plus_with_space (S3.object_key r)))
    as [key|e] eqn:Hkey.
  2: { rewrite (handler_with_undecodable _ _ _ _ _ _ Hkey).
       repeat split; apply Nat.le_0_l. }
  destruct (scan (S3.bucket_name r) key) as [scanResult|e] eqn:Hscan.
  2: { rewrite (handler_with_scan_failure _ _ _ _ _ _ _ Hkey Hscan).
       repeat split; observe; cbn; lia. }
  destruct (isMalicious scanResult) eqn:Hmal.
  - destruct (getUploadDetailsFromCloudTrail_run Date_parse w
                (S3.bucket_name r) key (S3.eventTime r))
      as (log & d & Hrun & Hd & Hn & Hs & _).
    rewrite (handler_with_malicious _ _ _ _ _ _ _ _ _ Hkey Hscan Hmal Hrun).
    destruct (s3Client_send w _) as [[]|e];
      [destruct (sesClient_send w _) as [[]|e]|];
      observe; rewrite Hd, Hn, Hs; cbn; repeat split; lia.
  - rewrite (handler_with_first_record _ _ _ _ _ _ Hkey).
    rewrite (handler_try_clean _ _ _ _ _ _ _ Hscan Hmal), try_catch_Normal.
    repeat split; observe; cbn; lia.
Qed.

(* ===================================================================== *)
(** * Further facts about the runtime and the pipeline *)
(* ===================================================================== *)

Lemma startsWith_prefix s p :
  startsWith s p = true <-> exists b, s = p ++ b.
Proof.
  revert s. induction p as [|a p IH]; intros [|c s]; cbn [startsWith].
  - split; [intros _; exists []; reflexivity | reflexivity].
  - split; [intros _; exists (c :: s); reflexivity | reflexivity].
  - split; [discriminate | intros [b Hb]; discriminate Hb].
  - rewrite andb_true_iff, Z.eqb_eq, IH. split.
    + intros [-> [b ->]]. exists b. reflexivity.
    + intros [b Hb]. injection Hb as -> ->. split; [reflexivity | now exists b].
Qed.

Lemma includes_infix s p :
  includes s p = true <-> exists a b, s = a ++ p ++ b.
Proof.
  induction s as [|c s IH]; cbn [includes]; rewrite orb_true_iff, startsWith_prefix.
  - split.
    + intros [[b Hb] | H]; [|discriminate H]. exists [], b. exact Hb.
    + intros (a & b & Hab). left. destruct a; [now exists b | discriminate Hab].
  - rewrite IH. split.
    + intros [[b Hb] | (a & b & ->)].
      * exists [], b. exact Hb.
      * exists (c :: a), b. reflexivity.
    + intros (a & b & Hab). destruct a as [|c' a].
      * left. now exists b.
      * right. injection Hab as -> ->. now exists a, b.
Qed.

Lemma includes_toLowerCase key p :
  includes (toLowerCase key) p = true
  <-> exists before word after,
        key = before ++ word ++ after /\ toLowerCase word = p.
Proof.
  rewrite includes_infix. unfold toLowerCase. split.
  - intros (a & b & Hab).
    apply map_eq_app in Hab. destruct Hab as (before & tail & -> & Ha & Hab).
    apply map_eq_app in Hab. destruct Hab as (word & after & -> & Hw & Hb).
    exists before, word, after. split; [reflexivity | exact Hw].
  - intros (before & word & after & -> & <-).
    eexists _, _. rewrite !map_app. reflexivity.
Qed.

Lemma scanWithCrowdstrike_flag bucket key :
  exists scanResult,
    scanWithCrowdstrike bucket key = Normal scanResult
    /\ isMalicious scanResult = includes (toLowerCase key) (lit "malicious").
Proof.
  unfold scanWithCrowdstrike.
  destruct (includes (toLowerCase key) (lit "malicious"));
    eexists; split; reflexivity.
Qed.

Lemma map_completion_Throw {A B : Type} (f : A -> B) c e :
  map_completion f c = Throw e -> c = Throw e.
Proof. destruct c; cbn; [discriminate | intros [= ->]; reflexivity]. Qed.

Lemma map_completion_Normal {A B : Type} (f : A -> B) c b :
  map_completion f c = Normal b -> exists a, c = Normal a /\ b = f a.
Proof. destruct c as [a|]; cbn; [|discriminate]. intros [= <-]. now exists a. Qed.

Lemma Decode_plain s :
  ~ In 37 s -> Decode None s = Normal s.
Proof.
  induction s as [|C s IH]; intros Hs; [reflexivity|]. cbn [Decode].
  destruct (Z.eqb_spec C 37) as [->|_].
  - exfalso. apply Hs. now left.
  - rewrite IH; [reflexivity|]. intros Hin. apply Hs. now right.
Qed.

Lemma Decode_Throw_percent s e :
  Decode None s = Throw e -> In 37 s.
Proof.
  induction s as [|C s IH]; [discriminate|]. cbn [Decode].
  destruct (Z.eqb_spec C 37) as [->|_]; [intros _; now left|].
  intros H. right. apply IH. eapply map_completion_Throw, H.
Qed.

Lemma Decode_pending_step r octets s :
  Decode (Some (r, octets)) s
  = match s with
    | c :: h1 :: h2 :: rest =>
        if c =? 37 then
          match ParseHexOctet h1 h2 with
          | None => Throw URIError
          | Some B =>
              match r with
              | S (S r') => Decode (Some (S r', octets ++ [B])) rest
              | _ =>
                  match utf8_code_point (octets ++ [B]) with
                  | None => Throw URIError
                  | Some V =>
                      map_completion (app (UTF16EncodeCodePoint V))
                                     (Decode None rest)
                  end
              end
          end
        else Throw URIError
    | _ => Throw URIError
    end.
Proof.
  destruct s as [|c s]; [reflexivity|].
  destruct c as [|p|p]; try (destruct s as [|? [|? ?]]; reflexivity).
  repeat (destruct p as [p|p|];
          try (destruct s as [|? [|? ?]]; reflexivity)).
Qed.

Lemma UTF16EncodeCodePoint_length V :
  (List.length (UTF16EncodeCodePoint V) <= 2)%nat.
Proof. unfold UTF16EncodeCodePoint. destruct (V <=? 65535); cbn; lia. Qed.

Lemma Decode_length_and_error n :
  forall s, (List.length s <= n)%nat ->
  forall pending,
    (forall e, Decode pending s = Throw e -> e = URIError)
    /\ (forall k, Decode pending s = Normal k ->
                  (List.length k <= List.length s)%nat).
Proof.
  induction n as [|n IH]; intros s Hn pending.
  - destruct s; [|cbn in Hn; lia].
    destruct pending as [[r octets]|]; cbn; split; intros ? H;
      try discriminate; injection H as <-; auto.
  - destruct pending as [[r octets]|].
    + rewrite Decode_pending_step.
      destruct s as [|c [|h1 [|h2 rest]]];
        try (split; intros ? H; [now injection H as <- | discriminate H]).
      assert (Hrest : (List.length rest <= n)%nat) by (cbn in Hn; lia).
      destruct (c =? 37);
        [|split; intros ? H; [now injection H as <- | discriminate H]].
      destruct (ParseHexOctet h1 h2) as [B|];
        [|split; intros ? H; [now injection H as <- | discriminate H]].
      assert (Hlast :
        (forall e,
           match utf8_code_point (octets ++ [B]) with
           | Some V => map_completion (app (UTF16EncodeCodePoint V))
                                      (Decode None rest)
           | None => Throw URIError
           end = Throw e -> e = URIError)
        /\ (forall k,
             match utf8_code_point (octets ++ [B]) with
             | Some V => map_completion (app (UTF16EncodeCodePoint V))
                                        (Decode None rest)
             | None => Throw URIError
             end = Normal k ->
             (List.length k <= List.length (c :: h1 :: h2 :: rest))%nat)).
      { destruct (utf8_code_point (octets ++ [B])) as [V|];
          [|split; intros ? H; [now injection H as <- | discriminate H]].
        destruct (IH rest Hrest None) as [He Hk]. split.
        - intros e H. apply map_completion_Throw in H. now apply He.
        - intros k H. apply map_completion_Normal in H.
          destruct H as (k' & Hk' & ->). apply Hk in Hk'.
          rewrite length_app. pose proof (UTF16EncodeCodePoint_length V).
          cbn [List.length]. lia. }
      destruct r as [|[|r']]; try exact Hlast.
      destruct (IH rest Hrest (Some (S r', octets ++ [B]))) as [He Hk].
      split; [exact He|]. intros k H. apply Hk in H. cbn [List.length]. lia.
    + destruct s as [|C rest]; [split; intros ? H; [discriminate H | now injection H as <-]|].
      cbn [Decode].
      assert (Hrest : (List.length rest <= n)%nat) by (cbn in Hn; lia).
      destruct (C =? 37).
      * destruct rest as [|h1 [|h2 rest']];
          try (split; intros ? H; [now injection H as <- | discriminate H]).
        assert (Hrest' : (List.length rest' <= n)%nat) by (cbn in Hrest; lia).
        destruct (ParseHexOctet h1 h2) as [B|];
          [|split; intros ? H; [now injection H as <- | discriminate H]].
        assert (Hp : forall p,
                  (forall e, Decode (Some p) rest' = Throw e -> e = URIError)
                  /\ (forall k, Decode (Some p) rest' = Normal k ->
                        (List.length k
                         <= List.length (C :: h1 :: h2 :: rest'))%nat)).
        { intros p. destruct (IH rest' Hrest' (Some p)) as [He Hk].
          split; [exact He|]. intros k H. apply Hk in H.
          cbn [List.length]. lia. }
        destruct (leading_ones B) as [|p|p].
        -- destruct (IH rest' Hrest' None) as [He Hk]. split.
           ++ intros e H. apply map_completion_Throw in H. now apply He.
           ++ intros k H. apply map_completion_Normal in H.
              destruct H as (k' & Hk' & ->). apply Hk in Hk'.
              cbn [List.length]. lia.
        -- destruct p as [[p|p|]|[[p|p|]|[p|p|]|]|]; try apply Hp;
             split; intros ? H; try discriminate H; now injection H as <-.
        -- split; intros ? H; [now injection H as <- | discriminate H].
      * destruct (IH rest Hrest None) as [He Hk]. split.
        -- intros e H. apply map_completion_Throw in H. now apply He.
        -- intros k H. apply map_completion_Normal in H.
           destruct H as (k' & Hk' & ->). apply Hk in Hk'.
           cbn [List.length]. lia.
Qed.

Lemma percent_survives_replace s :
  In 37 (replace_plus_with_space s) <-> In 37 s.
Proof.
  unfold replace_plus_with_space. rewrite in_map_iff. split.
  - intros (c & Hc & Hin). destruct (c =? 43).
    + discriminate Hc.
    + rewrite Hc in Hin. exact Hin.
  - intros Hin. exists 37. split; [reflexivity | exact Hin].
Qed.

Lemma queries_app t u : queries (t ++ u) = queries t ++ queries u.
Proof. induction t as [|[] t IH]; cbn; rewrite ?IH; reflexivity. Qed.

Section CorrelatorFacts.
Variable Date_parse : jsstring -> option Z.
Variable w : World.
Variables bucket key eventTime : jsstring.

Lemma correlator_query_failure e :
  cloudTrailClient_send w (lookup_command Date_parse (timeZone w) eventTime) = Throw e ->
  getUploadDetailsFromCloudTrail Date_parse w bucket key eventTime
  = ([CloudTrailSend (lookup_command Date_parse (timeZone w) eventTime);
      ConsoleError lookup_failed e], Normal (not_found eventTime)).
Proof.
  intros H. unfold getUploadDetailsFromCloudTrail. rewrite H. reflexivity.
Qed.

Lemma correlator_no_list :
  cloudTrailClient_send w (lookup_command Date_parse (timeZone w) eventTime)
  = Normal {| CloudTrail.Events := None |} ->
  getUploadDetailsFromCloudTrail Date_parse w bucket key eventTime
  = ([CloudTrailSend (lookup_command Date_parse (timeZone w) eventTime);
      ConsoleError lookup_failed TypeError], Normal (not_found eventTime)).
Proof.
  intros H. unfold getUploadDetailsFromCloudTrail. rewrite H. reflexivity.
Qed.

Lemma correlator_scan Events :
  cloudTrailClient_send w (lookup_command Date_parse (timeZone w) eventTime)
  = Normal {| CloudTrail.Events := Some Events |} ->
  getUploadDetailsFromCloudTrail Date_parse w bucket key eventTime
  = match snd (find_upload bucket key Events) with
    | Normal (Some d) =>
        ([CloudTrailSend (lookup_command Date_parse (timeZone w) eventTime)], Normal d)
    | Normal None =>
        ([CloudTrailSend (lookup_command Date_parse (timeZone w) eventTime)],
         Normal (not_found eventTime))
    | Throw e =>
        ([CloudTrailSend (lookup_command Date_parse (timeZone w) eventTime);
          ConsoleError lookup_failed e], Normal (not_found eventTime))
    end.
Proof.
  intros H. unfold getUploadDetailsFromCloudTrail. rewrite H.
  rewrite bind_perform_Normal. cbn [CloudTrail.Events iterable].
  rewrite bind_lift_Normal.
  pose proof (find_upload_silent bucket key Events) as Hs.
  destruct (find_upload bucket key Events) as [t [[d|]|e]];
    cbn [fst] in Hs; subst t; reflexivity.
Qed.

Lemma getUploadDetailsFromCloudTrail_log :
  exists log d,
    getUploadDetailsFromCloudTrail Date_parse w bucket key eventTime
    = (CloudTrailSend (lookup_command Date_parse (timeZone w) eventTime) :: log, Normal d)
    /\ (log = []
        \/ exists e, log = [ConsoleError lookup_failed e]
                     /\ d = not_found eventTime).
Proof.
  destruct (cloudTrailClient_send w (lookup_command Date_parse (timeZone w) eventTime))
    as [[[Events|]]|e] eqn:Hsend.
  - rewrite (correlator_scan Events Hsend).
    destruct (snd (find_upload bucket key Events)) as [[d|]|e];
      eexists _, _; (split; [reflexivity|]); eauto.
  - rewrite (correlator_no_list Hsend). eexists _, _. split; [reflexivity|]. eauto.
  - rewrite (correlator_query_failure e Hsend). eexists _, _. split; [reflexivity|]. eauto.
Qed.

Lemma find_upload_none Events :
  Forall (passed_over bucket key) Events ->
  find_upload bucket key Events = ret None.
Proof.
  induction 1 as [|audit Events [Hr Hm] _ IH]; [reflexivity|].
  rewrite find_upload_skip; assumption.
Qed.

Lemma find_upload_breaks before audit after :
  Forall (passed_over bucket key) before ->
  breaks_the_scan bucket key audit ->
  exists e,
    find_upload bucket key (before ++ audit :: after) = throw e
    /\ (e = SyntaxError \/ e = TypeError).
Proof.
  intros Hb Hbad. induction Hb as [|earlier before [Hr Hm] _ IH].
  - cbn [app]. destruct Hbad as [Hun | (a & Ha & Hmatch & Hid)].
    + unfold readable in Hun. cbn [find_upload].
      destruct (CloudTrail.CloudTrailEvent audit); try discriminate Hun.
      * exists SyntaxError. split; [reflexivity | now left].
      * exists TypeError. split; [reflexivity | now right].
    + exists TypeError. split; [|now right].
      apply (find_upload_no_identity _ _ _ _ a); assumption.
  - cbn [app]. rewrite find_upload_skip; assumption.
Qed.

End CorrelatorFacts.

Lemma includes_here p b : includes (p ++ b) p = true.
Proof. apply includes_infix. exists [], b. reflexivity. Qed.

Lemma includes_later a t p : includes t p = true -> includes (a ++ t) p = true.
Proof.
  rewrite !includes_infix. intros (x & y & ->). exists (a ++ x), y.
  rewrite <- app_assoc. reflexivity.
Qed.

Ltac find_in_text :=
  repeat first [ apply includes_here | apply includes_later ].

Lemma email_body_mentions bucket key scanResult uploadDetails :
  let text := email_body bucket key scanResult uploadDetails in
  includes text bucket = true
  /\ includes text key = true
  /\ includes text (details scanResult) = true
  /\ includes text (ToString (user uploadDetails)) = true
  /\ includes text (ToString (ipAddress uploadDetails)) = true
  /\ includes text (ToString (uploadTime uploadDetails)) = true.
Proof.
  cbv zeta. unfold email_body. repeat split; find_in_text.
Qed.

Lemma Decode_error_is_URIError s e :
  decodeURIComponent s = Throw e -> e = URIError.
Proof.
  intros H.
  exact (proj1 (Decode_length_and_error (List.length s) s (le_n _) None) e H).
Qed.

Lemma Decode_shortens s k :
  decodeURIComponent s = Normal k -> (List.length k <= List.length s)%nat.
Proof.
  intros H.
  exact (proj2 (Decode_length_and_error (List.length s) s (le_n _) None) k H).
Qed.

(** Splits a run of the handler into its seven courses. *)
Ltac handler_cases Date_parse scan w event :=
  destruct event as [[|r rest]];
  [ rewrite (handler_with_no_record Date_parse scan w)
  | destruct (decodeURIComponent (replace_plus_with_space (S3.object_key r)))
      as [key|e] eqn:Hkey;
    [ destruct (scan (S3.bucket_name r) key) as [scanResult|e] eqn:Hscan;
      [ destruct (isMalicious scanResult) eqn:Hmal;
        [ destruct (getUploadDetailsFromCloudTrail_log Date_parse w
                      (S3.bucket_name r) key (S3.eventTime r))
            as (log & d & Hrun & Hlog);
          rewrite (handler_with_malicious _ _ _ _ _ _ _ _ _
                     Hkey Hscan Hmal Hrun);
          destruct (s3Client_send w
                      {| S3.Bucket := S3.bucket_name r; S3.Key := key |})
            as [[]|e] eqn:Hdel;
          [ destruct (sesClient_send w
                        (email_command w (S3.bucket_name r) key scanResult d))
              as [[]|e] eqn:Hmail
          | ]
        | rewrite (handler_with_first_record _ _ _ _ _ _ Hkey),
                  (handler_try_clean _ _ _ _ _ _ _ Hscan Hmal),
                  try_catch_Normal ]
      | rewrite (handler_with_scan_failure _ _ _ _ _ _ _ Hkey Hscan) ]
    | rewrite (handler_with_undecodable _ _ _ _ _ _ Hkey) ] ].

Ltac log_cases Hlog :=
  destruct Hlog as [-> | (elog & -> & ->)].

Lemma summary_has_no_percent : ~ In 37 (S3.object_key Samples.summary).
Proof. cbn. intuition discriminate. Defined.

(* ===================================================================== *)
(** * Further properties *)
(* ===================================================================== *)

(** X1.  The placeholder scanner never throws, and it flags a key exactly
    when the key contains the word "malicious" in some mix of upper and lower
    case; the bucket plays no part. *)
Theorem placeholder_scanner_verdict bucket key :
  exists scanResult,
    scanWithCrowdstrike bucket key = Normal scanResult
    /\ (isMalicious scanResult = true
        <-> exists before word after,
              key = before ++ word ++ after
              /\ toLowerCase word = lit "malicious").
Proof.
  destruct (scanWithCrowdstrike_flag bucket key) as (scanResult & Hscan & Hflag).
  exists scanResult. split; [exact Hscan|].
  rewrite Hflag. apply includes_toLowerCase.
Qed.

(** X2.  With the placeholder scanner, the exported handler sends a delete
    command exactly when the decoded key of the first record contains the
    word "malicious" in some mix of upper and lower case, whatever the
    services answer. *)
Theorem the_placeholder_decides_the_delete Date_parse w r rest :
  deletes (calls (handler Date_parse w {| S3.Records := r :: rest |})) <> []
  <-> exists before word after,
        decodeURIComponent (replace_plus_with_space (S3.object_key r))
        = Normal (before ++ word ++ after)
        /\ toLowerCase word = lit "malicious".
Proof.
  unfold handler.
  destruct (decodeURIComponent (replace_plus_with_space (S3.object_key r)))
    as [key|e] eqn:Hkey.
  2: { rewrite (handler_with_undecodable _ _ _ _ _ _ Hkey). split.
       - intros H. now contradiction H.
       - intros (? & ? & ? & H & _). discriminate H. }
  destruct (scanWithCrowdstrike_flag (S3.bucket_name r) key)
    as (scanResult & Hscan & Hflag).
  assert (Hword :
    (exists before word after,
       Normal key = Normal (before ++ word ++ after)
       /\ toLowerCase word = lit "malicious")
    <-> isMalicious scanResult = true).
  { rewrite Hflag, includes_toLowerCase. split.
    - intros (a & x & b & [= ->] & Hx). now exists a, x, b.
    - intros (a & x & b & -> & Hx). now exists a, x, b. }
  rewrite Hword.
  destruct (isMalicious scanResult) eqn:Hmal.
  - destruct (getUploadDetailsFromCloudTrail_run Date_parse w
                (S3.bucket_name r) key (S3.eventTime r))
      as (log & d & Hrun & Hd & _).
    rewrite (handler_with_malicious _ _ _ _ _ _ _ _ _ Hkey Hscan Hmal Hrun).
    split; [reflexivity|]. intros _.
    destruct (s3Client_send w _) as [[]|e];
      [destruct (sesClient_send w _) as [[]|e]|];
      observe; rewrite Hd; discriminate.
  - rewrite (handler_with_first_record _ _ _ _ _ _ Hkey).
    rewrite (handler_try_clean _ _ _ _ _ _ _ Hscan Hmal), try_catch_Normal.
    split; [intros H; now contradiction H | discriminate].
Qed.

(** X3.  A key without a percent sign is never rejected: the scanner is
    called once, with the key in which every [+] has become a space. *)
Theorem a_key_without_percent_is_accepted Date_parse scan w r rest :
  ~ In 37 (S3.object_key r) ->
  scans (calls (handler_with Date_parse scan w {| S3.Records := r :: rest |}))
  = [(S3.bucket_name r, replace_plus_with_space (S3.object_key r))].
Proof.
  intros Hplain. apply handler_with_scans. apply Decode_plain.
  rewrite percent_survives_replace. exact Hplain.
Qed.

(** A key with a plus sign and no escape. *)
Lemma a_plain_key_sample :
  (~ In 37 (S3.object_key Samples.summary)) /\
  (scans (calls Samples.harmless)
  = [(S3.bucket_name Samples.summary, replace_plus_with_space (S3.object_key
      Samples.summary))]).
Proof.
  split; [exact (summary_has_no_percent)|].
  exact (a_key_without_percent_is_accepted Scenario.Date_parse
      scanWithCrowdstrike Scenario.all_up Samples.summary []
           summary_has_no_percent).
Defined.

(** X4.  When the key of the first record cannot be decoded, the error is a
    URIError, the key contains a percent sign, and the handler throws before
    the [try] block: no call is made and nothing is written with
    [console.error]. *)
Theorem a_rejected_key_has_a_bad_escape Date_parse scan w r rest thrown :
  decodeURIComponent (replace_plus_with_space (S3.object_key r))
  = Throw thrown ->
  thrown = URIError
  /\ In 37 (S3.object_key r)
  /\ handler_with Date_parse scan w {| S3.Records := r :: rest |}
     = ([], Throw URIError).
Proof.
  intros Hkey. pose proof (Decode_error_is_URIError _ _ Hkey) as ->.
  repeat split.
  - apply Decode_Throw_percent in Hkey.
    rewrite percent_survives_replace in Hkey. exact Hkey.
  - apply (handler_with_undecodable _ _ _ _ _ _ Hkey).
Qed.

(** A key with a percent sign that starts no escape. *)
Lemma a_rejected_key_sample :
  (decodeURIComponent (replace_plus_with_space (S3.object_key Samples.percent))
  = Throw URIError) /\
  (URIError = URIError
  /\ In 37 (S3.object_key Samples.percent)
  /\ handler Scenario.Date_parse Scenario.all_up {| S3.Records :=
      [Samples.percent] |}
     = ([], Throw URIError)).
Proof.
  split; [reflexivity|].
  exact (a_rejected_key_has_a_bad_escape Scenario.Date_parse scanWithCrowdstrike
      Scenario.all_up Samples.percent [] URIError
           eq_refl).
Defined.

(** X5.  The key passed to the scanner belongs to the bucket of the first
    record and has at most as many code units as the key in the event. *)
Theorem the_decoded_key_is_no_longer Date_parse scan w r rest bucket key :
  In (bucket, key)
     (scans (calls (handler_with Date_parse scan w
                      {| S3.Records := r :: rest |}))) ->
  bucket = S3.bucket_name r
  /\ (List.length key <= List.length (S3.object_key r))%nat.
Proof.
  destruct (decodeURIComponent (replace_plus_with_space (S3.object_key r)))
    as [decoded|e] eqn:Hkey.
  - rewrite (handler_with_scans _ _ _ _ _ _ Hkey). intros [[= <- <-] | []].
    split; [reflexivity|]. apply Decode_shortens in Hkey.
    unfold replace_plus_with_space in Hkey. rewrite length_map in Hkey.
    exact Hkey.
  - rewrite (handler_with_undecodable _ _ _ _ _ _ Hkey). intros [].
Qed.

(** The key of [Samples.summary], decoded. *)
Lemma a_decoded_key_sample :
  (In ((lit "uploads"), (lit "reports/summary 2024.pdf"))
     (scans (calls Samples.harmless))) /\
  ((lit "uploads") = S3.bucket_name Samples.summary
  /\ (List.length (lit "reports/summary 2024.pdf") <= List.length (S3.object_key
      Samples.summary))%nat).
Proof.
  split; [exact (or_introl eq_refl)|].
  exact (the_decoded_key_is_no_longer Scenario.Date_parse scanWithCrowdstrike
      Scenario.all_up Samples.summary [] (lit "uploads") (lit
          "reports/summary 2024.pdf")
           (or_introl eq_refl)).
Defined.

(** X6.  A response tells what was done.  Whenever the handler returns, the
    status code is 200 and the first record's key was decoded and scanned;
    with a malicious verdict the body reads "Malicious", the delete command
    and the notification were each sent once and both succeeded; with any
    other verdict the body reads "Clean" and the scan was the only call. *)
Theorem a_response_tells_what_was_done Date_parse scan w event response :
  result (handler_with Date_parse scan w event) = Normal response ->
  exists r rest key scanResult,
    S3.Records event = r :: rest
    /\ decodeURIComponent (replace_plus_with_space (S3.object_key r))
       = Normal key
    /\ scan (S3.bucket_name r) key = Normal scanResult
    /\ statusCode response = 200
    /\ if isMalicious scanResult then
         body response = body_Malicious
         /\ s3Client_send w {| S3.Bucket := S3.bucket_name r; S3.Key := key |}
            = Normal tt
         /\ deletes (calls (handler_with Date_parse scan w event))
            = [ {| S3.Bucket := S3.bucket_name r; S3.Key := key |} ]
         /\ exists uploadDetails,
              result (getUploadDetailsFromCloudTrail Date_parse w
                        (S3.bucket_name r) key (S3.eventTime r))
              = Normal uploadDetails
              /\ sesClient_send w
                   (email_command w (S3.bucket_name r) key scanResult
                      uploadDetails) = Normal tt
              /\ notifications (calls (handler_with Date_parse scan w event))
                 = [ email_command w (S3.bucket_name r) key scanResult
                       uploadDetails ]
       else
         body response = body_Clean
         /\ calls (handler_with Date_parse scan w event)
            = [ScanObject (S3.bucket_name r) key].
Proof.
  handler_cases Date_parse scan w event; try discriminate.
  - intros [= <-]. exists r, rest, key, scanResult. rewrite Hmal.
    rewrite (scan_complete_Malicious _ Hmal), Hrun.
    log_cases Hlog; repeat split; try assumption;
      eexists; repeat split; eassumption || reflexivity.
  - intros [= <-]. exists r, rest, key, scanResult. rewrite Hmal.
    rewrite (scan_complete_Clean _ Hmal). repeat split; assumption.
Qed.

(** The scenario of the specification, read from its response. *)
Lemma a_response_sample :
  (result Samples.remediated = Normal Samples.malicious_response) /\
  (exists r rest key scanResult,
    S3.Records Scenario.flagged_upload = r :: rest
    /\ decodeURIComponent (replace_plus_with_space (S3.object_key r))
       = Normal key
    /\ scanWithCrowdstrike (S3.bucket_name r) key = Normal scanResult
    /\ statusCode Samples.malicious_response = 200
    /\ if isMalicious scanResult then
         body Samples.malicious_response = body_Malicious
         /\ s3Client_send Scenario.all_up {| S3.Bucket := S3.bucket_name r;
             S3.Key := key |}
            = Normal tt
         /\ deletes (calls Samples.remediated)
            = [ {| S3.Bucket := S3.bucket_name r; S3.Key := key |} ]
         /\ exists uploadDetails,
              result (getUploadDetailsFromCloudTrail Scenario.Date_parse
                  Scenario.all_up
                        (S3.bucket_name r) key (S3.eventTime r))
              = Normal uploadDetails
              /\ sesClient_send Scenario.all_up
                   (email_command Scenario.all_up (S3.bucket_name r) key
                       scanResult
                      uploadDetails) = Normal tt
              /\ notifications (calls Samples.remediated)
                 = [ email_command Scenario.all_up (S3.bucket_name r) key
                     scanResult
                       uploadDetails ]
       else
         body Samples.malicious_response = body_Clean
         /\ calls Samples.remediated
            = [ScanObject (S3.bucket_name r) key]).
Proof.
  split; [reflexivity|].
  exact (a_response_tells_what_was_done Scenario.Date_parse scanWithCrowdstrike
      Scenario.all_up Scenario.flagged_upload Samples.malicious_response
           eq_refl).
Defined.

(** X7.  Every failure has one of five causes.  When the handler throws, then
    either [Records] is empty (a TypeError) or the key cannot be decoded (a
    URIError), and in both cases nothing was called or logged; or the
    scanner, the delete call or the notify call threw that very error, and
    the last thing the handler did was to write it with [console.error].  A
    failure of the audit query is never the cause. *)
Theorem every_failure_has_a_cause Date_parse scan w event thrown :
  result (handler_with Date_parse scan w event) = Throw thrown ->
  (S3.Records event = [] /\ thrown = TypeError
   /\ calls (handler_with Date_parse scan w event) = [])
  \/ (exists r rest,
        S3.Records event = r :: rest
        /\ decodeURIComponent (replace_plus_with_space (S3.object_key r))
           = Throw thrown
        /\ thrown = URIError
        /\ calls (handler_with Date_parse scan w event) = [])
  \/ (exists r rest key earlier,
        S3.Records event = r :: rest
        /\ decodeURIComponent (replace_plus_with_space (S3.object_key r))
           = Normal key
        /\ calls (handler_with Date_parse scan w event)
           = earlier ++ [ConsoleError handler_failed thrown]
        /\ (scan (S3.bucket_name r) key = Throw thrown
            \/ exists scanResult,
                 scan (S3.bucket_name r) key = Normal scanResult
                 /\ isMalicious scanResult = true
                 /\ (s3Client_send w
                       {| S3.Bucket := S3.bucket_name r; S3.Key := key |}
                     = Throw thrown
                     \/ exists uploadDetails,
                          result (getUploadDetailsFromCloudTrail Date_parse w
                                    (S3.bucket_name r) key (S3.eventTime r))
                          = Normal uploadDetails
                          /\ sesClient_send w
                               (email_command w (S3.bucket_name r) key
                                  scanResult uploadDetails) = Throw thrown))).
Proof.
  handler_cases Date_parse scan w event; try discriminate; intros [= <-].
  - left. repeat split.
  - right. right. exists r, rest, key. eexists. repeat split.
    + assumption.
    + cbn [calls fst]. rewrite app_comm_cons.
      change [S3Send ?c; ?n; ?x] with ([S3Send c; n] ++ [x]).
      rewrite app_assoc. reflexivity.
    + right. exists scanResult. repeat split; try assumption.
      right. exists d. rewrite Hrun. split; [reflexivity | assumption].
  - right. right. exists r, rest, key. eexists. repeat split.
    + assumption.
    + cbn [calls fst]. rewrite app_comm_cons.
      change [S3Send ?c; ?x] with ([S3Send c] ++ [x]).
      rewrite app_assoc. reflexivity.
    + right. exists scanResult. repeat split; try assumption. now left.
  - right. right. exists r, rest, key, [ScanObject (S3.bucket_name r) key].
    repeat split; try assumption. now left.
  - right. left. exists r, rest.
    pose proof (Decode_error_is_URIError _ _ Hkey) as ->.
    repeat split; assumption.
Qed.

(** A run in which the mail service rejects the message. *)
Lemma a_failure_sample :
  (result Samples.unannounced = Throw Samples.rejected) /\
  ((S3.Records Scenario.flagged_upload = [] /\ Samples.rejected = TypeError
   /\ calls Samples.unannounced = [])
  \/ (exists r rest,
        S3.Records Scenario.flagged_upload = r :: rest
        /\ decodeURIComponent (replace_plus_with_space (S3.object_key r))
           = Throw Samples.rejected
        /\ Samples.rejected = URIError
        /\ calls Samples.unannounced = [])
  \/ (exists r rest key earlier,
        S3.Records Scenario.flagged_upload = r :: rest
        /\ decodeURIComponent (replace_plus_with_space (S3.object_key r))
           = Normal key
        /\ calls Samples.unannounced
           = earlier ++ [ConsoleError handler_failed Samples.rejected]
        /\ (scanWithCrowdstrike (S3.bucket_name r) key = Throw Samples.rejected
            \/ exists scanResult,
                 scanWithCrowdstrike (S3.bucket_name r) key = Normal scanResult
                 /\ isMalicious scanResult = true
                 /\ (s3Client_send Scenario.mail_down
                       {| S3.Bucket := S3.bucket_name r; S3.Key := key |}
                     = Throw Samples.rejected
                     \/ exists uploadDetails,
                          result (getUploadDetailsFromCloudTrail
                              Scenario.Date_parse Scenario.mail_down
                                    (S3.bucket_name r) key (S3.eventTime r))
                          = Normal uploadDetails
                          /\ sesClient_send Scenario.mail_down
                               (email_command Scenario.mail_down (S3.bucket_name
                                   r) key
                                  scanResult uploadDetails) = Throw
                                      Samples.rejected)))).
Proof.
  split; [reflexivity|].
  exact (every_failure_has_a_cause Scenario.Date_parse scanWithCrowdstrike
      Scenario.mail_down Scenario.flagged_upload Samples.rejected
           eq_refl).
Defined.

(** X8.  A delete command is only sent for the bucket and decoded key of the
    first record, after the scanner has flagged them and after exactly one
    audit query; between the query and the delete nothing is called but
    [console.error], and a notification follows only a delete that
    succeeded. *)
Theorem a_delete_follows_a_verdict_and_a_query Date_parse scan w event c :
  In c (deletes (calls (handler_with Date_parse scan w event))) ->
  exists r rest key scanResult log after,
    S3.Records event = r :: rest
    /\ decodeURIComponent (replace_plus_with_space (S3.object_key r))
       = Normal key
    /\ scan (S3.bucket_name r) key = Normal scanResult
    /\ isMalicious scanResult = true
    /\ c = {| S3.Bucket := S3.bucket_name r; S3.Key := key |}
    /\ calls (handler_with Date_parse scan w event)
       = ScanObject (S3.bucket_name r) key
           :: CloudTrailSend (lookup_command Date_parse (timeZone w) (S3.eventTime r))
           :: log ++ S3Send c :: after
    /\ scans log = [] /\ queries log = [] /\ deletes log = []
    /\ notifications log = []
    /\ scans after = [] /\ queries after = [] /\ deletes after = []
    /\ (notifications after <> [] -> s3Client_send w c = Normal tt).
Proof.
  assert (Hquiet : forall log (d : UploadDetails) eventTime,
            log = []
            \/ (exists e, log = [ConsoleError lookup_failed e]
                          /\ d = not_found eventTime) ->
            scans log = [] /\ queries log = [] /\ deletes log = []
            /\ notifications log = []).
  { intros log d t [-> | (e & -> & _)]; repeat split. }
  handler_cases Date_parse scan w event; try (intros []);
    destruct (Hquiet _ _ _ Hlog) as (Hs & Hq & Hd & Hn);
    cbn [calls fst app]; cbn [deletes]; rewrite deletes_app, Hd;
    intros [<- | []]; exists r, rest, key, scanResult, log.
  - exists [SESSend (email_command w (S3.bucket_name r) key scanResult d)].
    repeat split; try assumption. intros _. assumption.
  - exists [SESSend (email_command w (S3.bucket_name r) key scanResult d);
            ConsoleError handler_failed e].
    repeat split; try assumption. intros _. assumption.
  - exists [ConsoleError handler_failed e].
    repeat split; try assumption. intros H. now contradiction H.
Qed.

(** The delete command of the scenario. *)
Lemma a_delete_sample :
  (In Scenario.flagged (deletes (calls Samples.remediated))) /\
  (exists r rest key scanResult log after,
    S3.Records Scenario.flagged_upload = r :: rest
    /\ decodeURIComponent (replace_plus_with_space (S3.object_key r))
       = Normal key
    /\ scanWithCrowdstrike (S3.bucket_name r) key = Normal scanResult
    /\ isMalicious scanResult = true
    /\ Scenario.flagged = {| S3.Bucket := S3.bucket_name r; S3.Key := key |}
    /\ calls Samples.remediated
       = ScanObject (S3.bucket_name r) key
           :: CloudTrailSend (lookup_command Scenario.Date_parse Scenario.zone (S3.eventTime
               r))
           :: log ++ S3Send Scenario.flagged :: after
    /\ scans log = [] /\ queries log = [] /\ deletes log = []
    /\ notifications log = []
    /\ scans after = [] /\ queries after = [] /\ deletes after = []
    /\ (notifications after <> [] -> s3Client_send Scenario.all_up
        Scenario.flagged = Normal tt)).
Proof.
  split; [exact (or_introl eq_refl)|].
  exact (a_delete_follows_a_verdict_and_a_query Scenario.Date_parse
      scanWithCrowdstrike Scenario.all_up Scenario.flagged_upload
          Scenario.flagged
           (or_introl eq_refl)).
Defined.

(** X9.  Every notification sent follows a successful delete, goes to the one
    address of [NOTIFICATION_EMAIL_TO] from [NOTIFICATION_EMAIL_FROM] under
    the fixed subject, and its text contains the bucket, the decoded key, the
    scan details and the three fields of the upload details, an absent field
    as the word "undefined" or "null". *)
Theorem a_notification_names_the_object Date_parse scan w event n :
  In n (notifications (calls (handler_with Date_parse scan w event))) ->
  exists r rest key scanResult uploadDetails,
    S3.Records event = r :: rest
    /\ decodeURIComponent (replace_plus_with_space (S3.object_key r))
       = Normal key
    /\ scan (S3.bucket_name r) key = Normal scanResult
    /\ result (getUploadDetailsFromCloudTrail Date_parse w
                 (S3.bucket_name r) key (S3.eventTime r))
       = Normal uploadDetails
    /\ s3Client_send w {| S3.Bucket := S3.bucket_name r; S3.Key := key |}
       = Normal tt
    /\ SES.Destination_ToAddresses n = [NOTIFICATION_EMAIL_TO w]
    /\ SES.Source n = NOTIFICATION_EMAIL_FROM w
    /\ SES.Message_Subject_Data n
       = lit "[SECURITY ALERT] Malicious File Deleted from S3"
    /\ includes (SES.Message_Body_Text_Data n) (S3.bucket_name r) = true
    /\ includes (SES.Message_Body_Text_Data n) key = true
    /\ includes (SES.Message_Body_Text_Data n) (details scanResult) = true
    /\ includes (SES.Message_Body_Text_Data n)
         (ToString (user uploadDetails)) = true
    /\ includes (SES.Message_Body_Text_Data n)
         (ToString (ipAddress uploadDetails)) = true
    /\ includes (SES.Message_Body_Text_Data n)
         (ToString (uploadTime uploadDetails)) = true.
Proof.
  assert (Hquiet : forall log (d : UploadDetails) eventTime,
            log = []
            \/ (exists e, log = [ConsoleError lookup_failed e]
                          /\ d = not_found eventTime) ->
            notifications log = []).
  { intros log d t [-> | (e & -> & _)]; reflexivity. }
  handler_cases Date_parse scan w event; try (intros []);
    pose proof (Hquiet _ _ _ Hlog) as Hn;
    cbn [calls fst app]; cbn [notifications];
    rewrite notifications_app, Hn; cbn [app notifications In];
    intros Hin; try contradiction; destruct Hin as [<- | []];
    exists r, rest, key, scanResult, d;
    rewrite Hrun;
    destruct (email_body_mentions (S3.bucket_name r) key scanResult d)
      as (H1 & H2 & H3 & H4 & H5 & H6);
    repeat split; assumption.
Qed.

(** The notification of the scenario. *)
Lemma a_notification_sample :
  (In Samples.alert (notifications (calls Samples.remediated))) /\
  (exists r rest key scanResult uploadDetails,
    S3.Records Scenario.flagged_upload = r :: rest
    /\ decodeURIComponent (replace_plus_with_space (S3.object_key r))
       = Normal key
    /\ scanWithCrowdstrike (S3.bucket_name r) key = Normal scanResult
    /\ result (getUploadDetailsFromCloudTrail Scenario.Date_parse
        Scenario.all_up
                 (S3.bucket_name r) key (S3.eventTime r))
       = Normal uploadDetails
    /\ s3Client_send Scenario.all_up {| S3.Bucket := S3.bucket_name r; S3.Key :=
        key |}
       = Normal tt
    /\ SES.Destination_ToAddresses Samples.alert = [NOTIFICATION_EMAIL_TO
        Scenario.all_up]
    /\ SES.Source Samples.alert = NOTIFICATION_EMAIL_FROM Scenario.all_up
    /\ SES.Message_Subject_Data Samples.alert
       = lit "[SECURITY ALERT] Malicious File Deleted from S3"
    /\ includes (SES.Message_Body_Text_Data Samples.alert) (S3.bucket_name r) =
        true
    /\ includes (SES.Message_Body_Text_Data Samples.alert) key = true
    /\ includes (SES.Message_Body_Text_Data Samples.alert) (details scanResult)
        = true
    /\ includes (SES.Message_Body_Text_Data Samples.alert)
         (ToString (user uploadDetails)) = true
    /\ includes (SES.Message_Body_Text_Data Samples.alert)
         (ToString (ipAddress uploadDetails)) = true
    /\ includes (SES.Message_Body_Text_Data Samples.alert)
         (ToString (uploadTime uploadDetails)) = true).
Proof.
  split; [exact (or_introl eq_refl)|].
  exact (a_notification_names_the_object Scenario.Date_parse scanWithCrowdstrike
      Scenario.all_up Scenario.flagged_upload Samples.alert
           (or_introl eq_refl)).
Defined.

(** X10.  The identity correlator writes to [console.error] only when
    something threw.  A query that throws [e] is logged with [e]; a response
    without [Events] is logged with a TypeError; a response whose events are
    all readable and all for other objects is not logged at all.  In the
    three cases one query was sent and the sentinel is returned. *)
Theorem the_correlator_logs_failures_only Date_parse w bucket key eventTime :
  (forall e,
     cloudTrailClient_send w (lookup_command Date_parse (timeZone w) eventTime) = Throw e ->
     getUploadDetailsFromCloudTrail Date_parse w bucket key eventTime
     = ([CloudTrailSend (lookup_command Date_parse (timeZone w) eventTime);
         ConsoleError lookup_failed e], Normal (not_found eventTime)))
  /\ (cloudTrailClient_send w (lookup_command Date_parse (timeZone w) eventTime)
      = Normal {| CloudTrail.Events := None |} ->
      getUploadDetailsFromCloudTrail Date_parse w bucket key eventTime
      = ([CloudTrailSend (lookup_command Date_parse (timeZone w) eventTime);
          ConsoleError lookup_failed TypeError], Normal (not_found eventTime)))
  /\ (forall Events,
        cloudTrailClient_send w (lookup_command Date_parse (timeZone w) eventTime)
        = Normal {| CloudTrail.Events := Some Events |} ->
        Forall (passed_over bucket key) Events ->
        getUploadDetailsFromCloudTrail Date_parse w bucket key eventTime
        = ([CloudTrailSend (lookup_command Date_parse (timeZone w) eventTime)],
           Normal (not_found eventTime))).
Proof.
  split; [|split].
  - apply correlator_query_failure.
  - apply correlator_no_list.
  - intros Events Hsend Hnone. rewrite (correlator_scan _ _ _ _ _ Events Hsend).
    rewrite (find_upload_none _ _ _ Hnone). reflexivity.
Qed.

Lemma the_correlator_sample :
  cloudTrailClient_send (Samples.audited [Scenario.elsewhere])
    (lookup_command Scenario.Date_parse Scenario.zone Scenario.when)
  = Normal {| CloudTrail.Events := Some [Scenario.elsewhere] |}
  /\ Forall (passed_over (lit "uploads") (lit "reports/malicious_invoice.pdf"))
       [Scenario.elsewhere]
  /\ getUploadDetailsFromCloudTrail Scenario.Date_parse
       (Samples.audited [Scenario.elsewhere])
       (lit "uploads") (lit "reports/malicious_invoice.pdf") Scenario.when
     = ([CloudTrailSend (lookup_command Scenario.Date_parse Scenario.zone Scenario.when)],
        Normal (not_found Scenario.when)).
Proof.
  assert (H : Forall (passed_over (lit "uploads")
                        (lit "reports/malicious_invoice.pdf"))
                [Scenario.elsewhere])
    by (repeat constructor).
  split; [reflexivity|]. split; [exact H|].
  exact (proj2 (proj2 (the_correlator_logs_failures_only Scenario.Date_parse
                         (Samples.audited [Scenario.elsewhere])
                         (lit "uploads") (lit "reports/malicious_invoice.pdf")
                         Scenario.when))
           [Scenario.elsewhere] eq_refl H).
Defined.

(** X11.  An event that cannot be read, or that matches but has no user
    identity, ends the scan when the events before it were passed over: one
    SyntaxError or TypeError is logged and the sentinel is returned, whatever
    events follow. *)
Theorem a_broken_event_ends_the_scan
    Date_parse w bucket key eventTime before audit after :
  cloudTrailClient_send w (lookup_command Date_parse (timeZone w) eventTime)
  = Normal {| CloudTrail.Events := Some (before ++ audit :: after) |} ->
  Forall (passed_over bucket key) before ->
  breaks_the_scan bucket key audit ->
  exists e,
    (e = SyntaxError \/ e = TypeError)
    /\ getUploadDetailsFromCloudTrail Date_parse w bucket key eventTime
       = ([CloudTrailSend (lookup_command Date_parse (timeZone w) eventTime);
           ConsoleError lookup_failed e], Normal (not_found eventTime)).
Proof.
  intros Hsend Hbefore Hbad.
  destruct (find_upload_breaks bucket key before audit after Hbefore Hbad)
    as (e & Hfind & He).
  exists e. split; [exact He|].
  rewrite (correlator_scan _ _ _ _ _ _ Hsend), Hfind. reflexivity.
Qed.

Lemma a_broken_event_sample :
  Forall (passed_over (lit "uploads") (lit "reports/malicious_invoice.pdf"))
    [Scenario.elsewhere]
  /\ breaks_the_scan (lit "uploads") (lit "reports/malicious_invoice.pdf")
       Scenario.garbled
  /\ exists e,
       (e = SyntaxError \/ e = TypeError)
       /\ getUploadDetailsFromCloudTrail Scenario.Date_parse
            (Samples.audited
               [Scenario.elsewhere; Scenario.garbled; Scenario.by_alice])
            (lit "uploads") (lit "reports/malicious_invoice.pdf")
            Scenario.when
          = ([CloudTrailSend (lookup_command Scenario.Date_parse Scenario.zone Scenario.when);
              ConsoleError lookup_failed e], Normal (not_found Scenario.when)).
Proof.
  assert (H : Forall (passed_over (lit "uploads")
                        (lit "reports/malicious_invoice.pdf"))
                [Scenario.elsewhere])
    by (repeat constructor).
  assert (B : breaks_the_scan (lit "uploads")
                (lit "reports/malicious_invoice.pdf") Scenario.garbled)
    by (left; reflexivity).
  split; [exact H|]. split; [exact B|].
  exact (a_broken_event_ends_the_scan Scenario.Date_parse
           (Samples.audited
              [Scenario.elsewhere; Scenario.garbled; Scenario.by_alice])
           (lit "uploads") (lit "reports/malicious_invoice.pdf") Scenario.when
           [Scenario.elsewhere] Scenario.garbled [Scenario.by_alice]
           eq_refl H B).
Defined.

(** X12.  An audit event matches exactly when its text parses to a record
    whose request parameters hold this very bucket name and this very key,
    code unit for code unit. *)
Theorem an_event_matches_exactly bucket key audit :
  event_matches bucket key audit = true
  <-> exists a,
        CloudTrail.CloudTrailEvent audit = CloudTrail.JSONValue a
        /\ CloudTrail.requestParameters a
           = Value {| CloudTrail.bucketName := Value bucket;
                      CloudTrail.key := Value key |}.
Proof.
  unfold event_matches, request_matches.
  destruct (CloudTrail.CloudTrailEvent audit) as [| |a].
  - split; [discriminate | intros (a & H & _); discriminate H].
  - split; [discriminate | intros (a & H & _); discriminate H].
  - destruct (CloudTrail.requestParameters a) as [| |[b k]] eqn:Hp;
      cbn [CloudTrail.bucketName CloudTrail.key].
    + split; [discriminate|]. intros (a' & [= <-] & H).
      rewrite Hp in H. discriminate H.
    + split; [discriminate|]. intros (a' & [= <-] & H).
      rewrite Hp in H. discriminate H.
    + rewrite andb_true_iff, !strict_equals_eq. split.
      * intros [-> ->]. exists a. split; [reflexivity | exact Hp].
      * intros (a' & [= <-] & H). rewrite Hp in H.
        injection H as -> ->. split; reflexivity.
Qed.

(** X13.  The query window ends at the event time and starts at the instant
    whose local clock reading, in the time zone of the runtime, is 15
    minutes before the local reading of the event time; a start outside the
    range of time values is invalid.  An event time that is not a date gives
    a window both ends of which are invalid. *)
Theorem the_window_starts_fifteen_local_minutes_back
    Date_parse zone eventTime :
  (forall t,
     Date_parse eventTime = Some t ->
     CloudTrail.EndTime (lookup_command Date_parse zone eventTime) = Some t
     /\ CloudTrail.StartTime (lookup_command Date_parse zone eventTime)
        = TimeClip (UTC zone (LocalTime zone t - 900000)))
  /\ (Date_parse eventTime = None ->
      CloudTrail.EndTime (lookup_command Date_parse zone eventTime) = None
      /\ CloudTrail.StartTime (lookup_command Date_parse zone eventTime)
         = None).
Proof.
  unfold lookup_command, new_Date.
  cbn [CloudTrail.StartTime CloudTrail.EndTime]. split.
  - intros t ->. rewrite setMinutes_back_clip. split; reflexivity.
  - intros ->. split; reflexivity.
Qed.

(** Ten minutes after clocks went back an hour, the window is 75 minutes
    long: it starts at 00:55 local time, which was 04:55 UTC. *)
Lemma the_window_sample :
  Autumn.Date_parse Autumn.when = Some 1730614200000
  /\ CloudTrail.EndTime
       (lookup_command Autumn.Date_parse Autumn.zone Autumn.when)
     = Some 1730614200000
  /\ CloudTrail.StartTime
       (lookup_command Autumn.Date_parse Autumn.zone Autumn.when)
     = Some (1730614200000 - 4500000).
Proof.
  split; [reflexivity|].
  exact (proj1 (the_window_starts_fifteen_local_minutes_back
                  Autumn.Date_parse Autumn.zone Autumn.when)
           1730614200000 eq_refl).
Defined.
